(** * Advisory engine and narration composer of weather.py

    A shallow embedding of [get_clothing_advice] and
    [generate_weather_speech], the two pure functions at the core of the
    weather dashboard, together with the properties the specification states
    about them ("evaluate" and "compose" in the specification's vocabulary).

    Modelling choices.
    - A temperature is a rational number [Q].  Every finite Python float and
      every Python int is a rational, and the comparisons of the source
      ([temp < -10], ...) are exact on them.  Non-finite floats are not reals
      and are outside the model.
    - A Python [str] is a [string] holding its UTF-8 bytes.  [str.lower] is
      modelled on the ASCII letters.  The keywords searched for are ASCII, and
      the only non-ASCII characters that Python lowers into ASCII ones
      (U+0130, U+212A) cannot create or destroy an occurrence of them.
    - The humidity is an integer [Z].
    - The two temperatures of the narration are numbers as the f-string
      [{temp:.1f}] sees them: an int, which it converts to a float first
      (rounding it, or raising [OverflowError]), or a finite float, among
      which [-0.0], which keeps its sign.
    - The local variables [advice] and [stay_indoor], which the source
      updates rule after rule, are the fields of a record threaded through
      the three rules. *)

From Stdlib Require Import ZArith QArith Qabs Bool List Ascii String Lia.
From Stdlib Require Import Numbers.DecimalString.
Import ListNotations.

Local Open Scope string_scope.
Local Open Scope Z_scope.

(** ** Python primitives *)

Module Py.

(** [x < k] for a number [x] and an integer literal [k]. *)
Definition lt_int (x : Q) (k : Z) : bool :=
  negb (Qle_bool (inject_Z k) x).

(** [x > k] for a number [x] and an integer literal [k]. *)
Definition gt_int (x : Q) (k : Z) : bool :=
  negb (Qle_bool x (inject_Z k)).

(** [c.lower()] on one character. *)
Definition lower_char (c : ascii) : ascii :=
  let n := N_of_ascii c in
  if ((65 <=? n) && (n <=? 90))%N then ascii_of_N (n + 32) else c.

(** [s.lower()]. *)
Fixpoint lower (s : string) : string :=
  match s with
  | EmptyString => EmptyString
  | String c s' => String (lower_char c) (lower s')
  end.

(** [needle in hay] on strings: the naive left-to-right search. *)
Fixpoint contains (needle hay : string) : bool :=
  if prefix needle hay then true
  else match hay with
       | EmptyString => false
       | String _ hay' => contains needle hay'
       end.

(** [sep.join(xs)]. *)
Definition join (sep : string) (xs : list string) : string :=
  String.concat sep xs.

(** The decimal digits of a natural number, as [str(n)] prints them. *)
Definition digits (n : Z) : string :=
  NilZero.string_of_uint (N.to_uint (Z.to_N n)).

(** Rounding of the fraction [num / den], [0 <= num], to the nearest integer,
    a tie going to the even neighbour: the rounding of the float formatter. *)
Definition round_half_even (num : Z) (den : positive) : Z :=
  let d := Z.pos den in
  let fl := num / d in
  match 2 * (num mod d) ?= d with
  | Lt => fl
  | Gt => fl + 1
  | Eq => if Z.even fl then fl else fl + 1
  end.

(** The number of tenths [format(x, '.1f')] prints for [|x|]. *)
Definition tenths (x : Q) : Z :=
  round_half_even (Z.abs (Qnum x) * 10) (Qden x).

(** [float(n)] for an int [0 <= n]: the value of the nearest double, which
    is an integer; an int of more than 53 bits is rounded to 53 bits, a tie
    going to the even neighbour, and one that rounds to [2 ^ 1024] or more
    has no double ([OverflowError]). *)
Definition nat_to_float (n : Z) : option Z :=
  let bits := if n =? 0 then 0 else Z.log2 n + 1 in
  if bits <=? 53 then Some n
  else
    let shift := bits - 53 in
    let m := Z.shiftr n shift in
    let rest := n - Z.shiftl m shift in
    let half := Z.shiftl 1 (shift - 1) in
    let m' := if (half <? rest) || ((rest =? half) && Z.odd m)
              then m + 1 else m in
    let v := Z.shiftl m' shift in
    if v <? 2 ^ 1024 then Some v else None.

(** [float(z)] for an int. *)
Definition int_to_float (z : Z) : option Q :=
  match nat_to_float (Z.abs z) with
  | Some v => Some (inject_Z (Z.sgn z * v))
  | None => None
  end.

End Py.

(** ** get_clothing_advice *)

Record locals : Type := mkLocals {
  advice : list string;
  stay_indoor : bool
}.

(** [advice.append(line)] *)
Definition append_advice (line : string) (st : locals) : locals :=
  mkLocals (advice st ++ [line])%list (stay_indoor st).

(** [stay_indoor = True] *)
Definition set_stay_indoor (st : locals) : locals :=
  mkLocals (advice st) true.

Module Line.
Definition extreme_cold :=
  "It's extremely cold outside. Wear heavy winter coat, thermal layers, gloves, scarf, and winter hat.".
Definition freezing :=
  "It's freezing cold. Wear a heavy jacket, warm layers, gloves, and a hat.".
Definition cold :=
  "It's quite cold. Wear a warm jacket, long sleeves, and consider bringing a scarf.".
Definition cool :=
  "It's cool outside. A light jacket or sweater would be comfortable.".
Definition mild :=
  "The weather is mild. A light sweater or long sleeves should be perfect.".
Definition pleasant :=
  "It's pleasant outside. Comfortable clothing like a t-shirt and light pants works well.".
Definition warm :=
  "It's warm. Wear light, breathable clothing like shorts and t-shirts.".
Definition hot :=
  "It's hot outside. Wear minimal, light-colored, breathable clothing and stay hydrated.".
Definition extreme_heat :=
  "It's extremely hot! Wear very light clothing, stay hydrated, and avoid prolonged sun exposure.".
Definition rain :=
  "Don't forget your umbrella and waterproof jacket!".
Definition snow :=
  "Wear waterproof boots and be careful of slippery surfaces.".
Definition storm :=
  "There's a storm warning. It's safer to stay indoors if possible!".
Definition fog :=
  "Visibility is low. Drive carefully and wear visible clothing.".
Definition humid :=
  "High humidity today. Wear moisture-wicking fabrics to stay comfortable.".
End Line.

(** The [if temp < -10: ... elif ... else: ...] chain. *)
Definition temperature_rule (temp : Q) (st : locals) : locals :=
  if Py.lt_int temp (-10) then set_stay_indoor (append_advice Line.extreme_cold st)
  else if Py.lt_int temp 0 then append_advice Line.freezing st
  else if Py.lt_int temp 10 then append_advice Line.cold st
  else if Py.lt_int temp 15 then append_advice Line.cool st
  else if Py.lt_int temp 20 then append_advice Line.mild st
  else if Py.lt_int temp 25 then append_advice Line.pleasant st
  else if Py.lt_int temp 30 then append_advice Line.warm st
  else if Py.lt_int temp 35 then append_advice Line.hot st
  else set_stay_indoor (append_advice Line.extreme_heat st).

(** The chain on [condition_lower = condition.lower()]. *)
Definition condition_rule (condition : string) (st : locals) : locals :=
  let condition_lower := Py.lower condition in
  if Py.contains "rain" condition_lower || Py.contains "drizzle" condition_lower
  then append_advice Line.rain st
  else if Py.contains "snow" condition_lower
  then append_advice Line.snow st
  else if Py.contains "storm" condition_lower || Py.contains "thunder" condition_lower
  then set_stay_indoor (append_advice Line.storm st)
  else if Py.contains "fog" condition_lower || Py.contains "mist" condition_lower
  then append_advice Line.fog st
  else st.

(** [if humidity > 80: advice.append(...)] *)
Definition humidity_rule (humidity : Z) (st : locals) : locals :=
  if humidity >? 80 then append_advice Line.humid st else st.

(** [advice = []; stay_indoor = False] *)
Definition initial : locals := mkLocals [] false.

Definition get_clothing_advice (temp : Q) (condition : string) (humidity : Z)
  : list string * bool :=
  let st := humidity_rule humidity
              (condition_rule condition
                 (temperature_rule temp initial)) in
  (advice st, stay_indoor st).

(** ** generate_weather_speech *)

Definition warning : string :=
  "Warning! Weather conditions are extreme. It is strongly advised to stay indoors. ".

(** ** The same two functions as Python runs them

    Python checks nothing before a call: [temp < -10] raises [TypeError] on a
    [str] or on [None], [condition.lower()] raises [AttributeError] on
    anything but a [str], and [advice] is a list object, allocated on the heap
    by [advice = []], mutated by [append] and returned by reference.  The
    module below embeds the two functions at that level, in a monad of heap
    state and exceptions; [get_clothing_advice] above, and
    [generate_weather_speech] after the module, are what it computes on
    arguments of the declared types. *)

Module Dyn.

(** A number: an int, or a finite float, given by its value; the float
    [-0.0], which has the value of [0.0] and prints otherwise, is apart. *)
Inductive number : Type :=
| Int (z : Z)
| Float (q : Q)
| NegZero.

Inductive value : Type :=
| VNone
| VNum (x : number)
| VStr (s : string).

Definition to_Q (x : number) : Q :=
  match x with
  | Int z => inject_Z z
  | Float q => q
  | NegZero => 0
  end.

Inductive exn : Type :=
| TypeError
| AttributeError
| ValueError
| SystemError
| OverflowError.

(** A reference to a list object, and the heap of the list objects. *)
Definition ref : Type := nat.
Definition heap : Type := list (list string).

Definition M (A : Type) : Type := heap -> exn + (A * heap).

Definition ret {A : Type} (a : A) : M A :=
  fun h => inr (a, h).

Definition bind {A B : Type} (m : M A) (k : A -> M B) : M B :=
  fun h => match m h with
           | inl e => inl e
           | inr (a, h') => k a h'
           end.

Definition raise {A : Type} (e : exn) : M A :=
  fun _ => inl e.

Notation "x <- m ;; k" := (bind m (fun x => k))
  (at level 61, m at next level, right associativity).
Notation "m ;; k" := (bind m (fun _ => k))
  (at level 61, right associativity).

(** [[]]: a fresh list object. *)
Definition new_list : M ref :=
  fun h => inr (List.length h, (h ++ [[]])%list).

Fixpoint update (h : heap) (r : ref) (xs : list string) : heap :=
  match h, r with
  | [], _ => []
  | _ :: h', O => xs :: h'
  | ys :: h', S r' => ys :: update h' r' xs
  end.

(** [r.append(line)]: the object is changed in place. *)
Definition append (r : ref) (line : string) : M unit :=
  fun h => match nth_error h r with
           | Some xs => inr (tt, update h r (xs ++ [line])%list)
           | None => inl SystemError
           end.

(** The items of the list object [r]. *)
Definition items (r : ref) : M (list string) :=
  fun h => match nth_error h r with
           | Some xs => inr (xs, h)
           | None => inl SystemError
           end.

(** [v < k] *)
Definition lt (v : value) (k : Z) : M bool :=
  match v with
  | VNum x => ret (Py.lt_int (to_Q x) k)
  | _ => raise TypeError
  end.

(** [v > k] *)
Definition gt (v : value) (k : Z) : M bool :=
  match v with
  | VNum x => ret (Py.gt_int (to_Q x) k)
  | _ => raise TypeError
  end.

(** [v.lower()] *)
Definition lower (v : value) : M string :=
  match v with
  | VStr s => ret (Py.lower s)
  | _ => raise AttributeError
  end.

(** The value of [float(x)]: an int is converted, which may overflow. *)
Definition float_value (x : number) : option Q :=
  match x with
  | Int z => Py.int_to_float z
  | Float q => Some q
  | NegZero => Some 0%Q
  end.

(** The sign of [float(x)]: that of [x], and [-0.0] is negative. *)
Definition negative (x : number) : bool :=
  match x with
  | Int z => z <? 0
  | Float q => Qnum q <? 0
  | NegZero => true
  end.

(** [format(x, '.1f')] for a number, the [{x:.1f}] of an f-string: the
    float of [x], written with its sign, the integer part of its tenths, a
    point and one digit.  An int too large for a float raises. *)
Definition number_format_1f (x : number) : exn + string :=
  match float_value x with
  | None => inl OverflowError
  | Some q =>
      inr ((if negative x then "-" else "")
             ++ Py.digits (Py.tenths q / 10) ++ "."
             ++ Py.digits (Py.tenths q mod 10))
  end.

(** [format(v, '.1f')] *)
Definition format_1f (v : value) : M string :=
  match v with
  | VNum x =>
      match number_format_1f x with
      | inr text => ret text
      | inl e => raise e
      end
  | VStr _ => raise ValueError
  | VNone => raise TypeError
  end.

Definition temperature_rule (temp : value) (advice : ref) (stay_indoor : bool)
  : M bool :=
  c <- lt temp (-10) ;;
  if c then (append advice Line.extreme_cold ;; ret true) else
  c <- lt temp 0 ;;
  if c then (append advice Line.freezing ;; ret stay_indoor) else
  c <- lt temp 10 ;;
  if c then (append advice Line.cold ;; ret stay_indoor) else
  c <- lt temp 15 ;;
  if c then (append advice Line.cool ;; ret stay_indoor) else
  c <- lt temp 20 ;;
  if c then (append advice Line.mild ;; ret stay_indoor) else
  c <- lt temp 25 ;;
  if c then (append advice Line.pleasant ;; ret stay_indoor) else
  c <- lt temp 30 ;;
  if c then (append advice Line.warm ;; ret stay_indoor) else
  c <- lt temp 35 ;;
  if c then (append advice Line.hot ;; ret stay_indoor) else
  (append advice Line.extreme_heat ;; ret true).

Definition condition_rule (condition : value) (advice : ref) (stay_indoor : bool)
  : M bool :=
  condition_lower <- lower condition ;;
  if Py.contains "rain" condition_lower || Py.contains "drizzle" condition_lower
  then (append advice Line.rain ;; ret stay_indoor)
  else if Py.contains "snow" condition_lower
  then (append advice Line.snow ;; ret stay_indoor)
  else if Py.contains "storm" condition_lower || Py.contains "thunder" condition_lower
  then (append advice Line.storm ;; ret true)
  else if Py.contains "fog" condition_lower || Py.contains "mist" condition_lower
  then (append advice Line.fog ;; ret stay_indoor)
  else ret stay_indoor.

Definition humidity_rule (humidity : value) (advice : ref) : M unit :=
  c <- gt humidity 80 ;;
  if c then append advice Line.humid else ret tt.

Definition get_clothing_advice (temp condition humidity : value)
  : M (ref * bool) :=
  advice <- new_list ;;
  let stay_indoor := false in
  stay_indoor <- temperature_rule temp advice stay_indoor ;;
  stay_indoor <- condition_rule condition advice stay_indoor ;;
  humidity_rule humidity advice ;;
  ret (advice, stay_indoor).

(** [city] and [condition] are interpolated as they are; the items of
    [advice_list] are read from the heap, and nothing is written. *)
Definition generate_weather_speech
    (city : string) (temp feels_like : value) (condition : string)
    (advice_list : ref) (stay_indoor : bool) : M string :=
  let speech_text := "Weather report for " ++ city ++ ". " in
  t <- format_1f temp ;;
  let speech_text :=
    speech_text ++ ("The current temperature is " ++ t ++ " degrees Celsius, ") in
  f <- format_1f feels_like ;;
  let speech_text :=
    speech_text ++ ("but it feels like " ++ f ++ " degrees. ") in
  let speech_text :=
    speech_text ++ ("The weather condition is " ++ condition ++ ". ") in
  let speech_text :=
    if stay_indoor then speech_text ++ warning else speech_text in
  xs <- items advice_list ;;
  ret (speech_text ++ ("Here's what you should wear. " ++ Py.join " " xs)).

(** [n] invocations of the same call, one after the other on the same heap. *)
Fixpoint repeat_call {A : Type} (n : nat) (call : M A) : M (list A) :=
  match n with
  | O => ret []
  | S n' => a <- call ;; rest <- repeat_call n' call ;; ret (a :: rest)
  end.

End Dyn.

(** ** generate_weather_speech on numbers

    What [generate_weather_speech] returns, or the exception of the f-string
    that raised, when the temperatures are numbers.  Each [let] is one
    [speech_text = ...] or [speech_text += ...] of the source. *)
Definition generate_weather_speech
    (city : string) (temp feels_like : Dyn.number) (condition : string)
    (advice_list : list string) (stay_indoor : bool) : Dyn.exn + string :=
  let speech_text := "Weather report for " ++ city ++ ". " in
  match Dyn.number_format_1f temp with
  | inl e => inl e
  | inr t =>
      let speech_text :=
        speech_text ++ ("The current temperature is " ++ t
                          ++ " degrees Celsius, ") in
      match Dyn.number_format_1f feels_like with
      | inl e => inl e
      | inr f =>
          let speech_text :=
            speech_text ++ ("but it feels like " ++ f ++ " degrees. ") in
          let speech_text :=
            speech_text ++ ("The weather condition is " ++ condition ++ ". ") in
          let speech_text :=
            if stay_indoor then speech_text ++ warning else speech_text in
          let speech_text :=
            speech_text
              ++ ("Here's what you should wear. " ++ Py.join " " advice_list) in
          inr speech_text
      end
  end.
(** ** The specification's vocabulary *)

Module Spec.

(** The nine rows of the temperature table. *)
Inductive band : Type :=
| ExtremeCold | Freezing | Cold | Cool | Mild | Pleasant | Warm | Hot
| ExtremeHeat.

Definition bands : list band :=
  [ExtremeCold; Freezing; Cold; Cool; Mild; Pleasant; Warm; Hot; ExtremeHeat].

(** The inclusive lower bound of a row, if it has one. *)
Definition lower_bound (b : band) : option Z :=
  match b with
  | ExtremeCold => None
  | Freezing => Some (-10)
  | Cold => Some 0
  | Cool => Some 10
  | Mild => Some 15
  | Pleasant => Some 20
  | Warm => Some 25
  | Hot => Some 30
  | ExtremeHeat => Some 35
  end.

(** The exclusive upper bound of a row, if it has one. *)
Definition upper_bound (b : band) : option Z :=
  match b with
  | ExtremeCold => Some (-10)
  | Freezing => Some 0
  | Cold => Some 10
  | Cool => Some 15
  | Mild => Some 20
  | Pleasant => Some 25
  | Warm => Some 30
  | Hot => Some 35
  | ExtremeHeat => None
  end.

(** [t] lies in the half-open interval of the row. *)
Definition in_band (b : band) (t : Q) : Prop :=
  match lower_bound b with Some k => (inject_Z k <= t)%Q | None => True end
  /\ match upper_bound b with Some k => (t < inject_Z k)%Q | None => True end.

Definition band_line (b : band) : string :=
  match b with
  | ExtremeCold => Line.extreme_cold
  | Freezing => Line.freezing
  | Cold => Line.cold
  | Cool => Line.cool
  | Mild => Line.mild
  | Pleasant => Line.pleasant
  | Warm => Line.warm
  | Hot => Line.hot
  | ExtremeHeat => Line.extreme_heat
  end.

Definition band_stay_indoor (b : band) : bool :=
  match b with
  | ExtremeCold | ExtremeHeat => true
  | _ => false
  end.

(** Some substring of [s] is [kw] up to the case of its letters. *)
Definition occurs_ci (kw s : string) : Prop :=
  exists pre mid post,
    s = pre ++ mid ++ post /\ Py.lower mid = Py.lower kw.

(** The letters, capital and small, side by side. *)
Definition capitals : string := "ABCDEFGHIJKLMNOPQRSTUVWXYZ".

Definition smalls : string := "abcdefghijklmnopqrstuvwxyz".

Definition case_pairs : list (ascii * ascii) :=
  combine (list_ascii_of_string capitals) (list_ascii_of_string smalls).

(** Two characters that are the same, or the capital and the small of one
    letter. *)
Definition same_letter (a b : ascii) : Prop :=
  a = b \/ In (a, b) case_pairs \/ In (b, a) case_pairs.

(** Two strings that differ at most by the case of their letters. *)
Fixpoint same_up_to_case (s s' : string) : Prop :=
  match s, s' with
  | EmptyString, EmptyString => True
  | String a r, String b r' => same_letter a b /\ same_up_to_case r r'
  | _, _ => False
  end.

(** Some substring of [s] is [kw] written in any case. *)
Definition occurs_any_case (kw s : string) : Prop :=
  exists pre mid post,
    s = pre ++ mid ++ post /\ same_up_to_case mid kw.

(** The four condition rules, in their order of precedence. *)
Inductive condition_class : Type :=
| Rain | Snow | Storm | Fog.

Definition keywords (c : condition_class) : list string :=
  match c with
  | Rain => ["rain"; "drizzle"]
  | Snow => ["snow"]
  | Storm => ["storm"; "thunder"]
  | Fog => ["fog"; "mist"]
  end.

Definition condition_line (c : condition_class) : string :=
  match c with
  | Rain => Line.rain
  | Snow => Line.snow
  | Storm => Line.storm
  | Fog => Line.fog
  end.

Definition condition_stay_indoor (c : condition_class) : bool :=
  match c with
  | Storm => true
  | _ => false
  end.

(** The description mentions one of the keywords of the rule. *)
Definition mentions (c : condition_class) (s : string) : Prop :=
  Exists (fun kw => occurs_ci kw s) (keywords c).

(** The rules that come before a rule. *)
Definition earlier (c : condition_class) : list condition_class :=
  match c with
  | Rain => []
  | Snow => [Rain]
  | Storm => [Rain; Snow]
  | Fog => [Rain; Snow; Storm]
  end.

(** The rule that wins: it matches and no earlier one does. *)
Definition wins (c : condition_class) (s : string) : Prop :=
  mentions c s /\ Forall (fun c' => ~ mentions c' s) (earlier c).

(** The outcome of the condition rules: the rule that won, if any. *)
Definition matched (oc : option condition_class) (s : string) : Prop :=
  match oc with
  | Some c => wins c s
  | None => forall c, ~ mentions c s
  end.

Definition condition_part (oc : option condition_class) : list string :=
  match oc with
  | Some c => [condition_line c]
  | None => []
  end.

Definition condition_flag (oc : option condition_class) : bool :=
  match oc with
  | Some c => condition_stay_indoor c
  | None => false
  end.

Definition humidity_part (humidity : Z) : list string :=
  if 80 <? humidity then [Line.humid] else [].

Definition condition_lines : list string :=
  [Line.rain; Line.snow; Line.storm; Line.fog].

(** How many of the lines of [advice] are among [lines]. *)
Definition count_among (lines advice : list string) : nat :=
  List.length (filter (fun l => existsb (String.eqb l) lines) advice).

(** When the stay-indoor flag is raised, in the words of the testable
    property: extreme cold, extreme heat, or a description that contains
    "storm" or "thunder". *)
Definition stay_indoor_when (t : Q) (condition : string) : Prop :=
  (t < inject_Z (-10))%Q \/ (inject_Z 35 <= t)%Q
  \/ occurs_ci "storm" condition \/ occurs_ci "thunder" condition.

(** The same, the storm rule being reached only by a description that
    contains none of "rain", "drizzle" and "snow". *)
Definition stay_indoor_when_reached (t : Q) (condition : string) : Prop :=
  (t < inject_Z (-10))%Q \/ (inject_Z 35 <= t)%Q
  \/ ((occurs_ci "storm" condition \/ occurs_ci "thunder" condition)
      /\ ~ (occurs_ci "rain" condition \/ occurs_ci "drizzle" condition)
      /\ ~ occurs_ci "snow" condition).





End Spec.

(** The search of the source for the keywords of one rule. *)
Definition mentionsb (c : Spec.condition_class) (s : string) : bool :=
  existsb (fun kw => Py.contains kw (Py.lower s)) (Spec.keywords c).

(** ** The dashboard around the two functions

    The rest of weather.py: the two fetch functions with their retries, the
    rows [display_forecast] extracts, and the top-level script, which keeps a
    session between its runs.  Weather data is what [response.json()]
    returns, a JSON value; an operation Python refuses raises the exception
    Python raises.  What the program cannot decide is a field of the
    environment: what the server answers, and the methods of [str] that only
    shape a city name or a label. *)

Module App.

(** A value of [response.json()].  An object holds the items of the dict,
    and a key is looked up from the left. *)
#[local] Set Warnings "-register-all".
Inductive json : Type :=
| JNull
| JBool (b : bool)
| JNum (x : Dyn.number)
| JStr (s : string)
| JArr (items : list json)
| JObj (fields : list (string * json)).

(** The exceptions of the operations on values, and [Uncaught] for an
    exception of a library call that the program has no handler for. *)
Inductive exn : Type :=
| KeyError
| IndexError
| TypeError
| AttributeError
| Uncaught.

Definition R (A : Type) : Type := (exn + A)%type.

Definition ret {A : Type} (a : A) : R A := inr a.

Definition raise {A : Type} (e : exn) : R A := inl e.

Definition bind {A B : Type} (m : R A) (k : A -> R B) : R B :=
  match m with
  | inl e => inl e
  | inr a => k a
  end.

Notation "x <- m ;; k" := (bind m (fun x => k))
  (at level 61, m at next level, right associativity).

(** [bool(v)] *)
Definition truthy (v : json) : bool :=
  match v with
  | JNull => false
  | JBool b => b
  | JNum x => negb (Qeq_bool (Dyn.to_Q x) 0)
  | JStr s => negb (s =? "")%string
  | JArr items => match items with [] => false | _ => true end
  | JObj fields => match fields with [] => false | _ => true end
  end.

(** [v == k] for an integer literal [k]; [True] is 1 and [False] is 0. *)
Definition eq_int (v : json) (k : Z) : bool :=
  match v with
  | JNum x => Qeq_bool (Dyn.to_Q x) (inject_Z k)
  | JBool b => (if b then 1 else 0) =? k
  | _ => false
  end.

(** [v == s] for a string literal [s]. *)
Definition eq_str (v : json) (s : string) : bool :=
  match v with
  | JStr s' => (s' =? s)%string
  | _ => false
  end.

Fixpoint lookup (fields : list (string * json)) (key : string) : option json :=
  match fields with
  | [] => None
  | (k, v) :: rest => if (k =? key)%string then Some v else lookup rest key
  end.

(** [v[key]] for a string [key]. *)
Definition getitem (v : json) (key : string) : R json :=
  match v with
  | JObj fields =>
      match lookup fields key with
      | Some x => ret x
      | None => raise KeyError
      end
  | _ => raise TypeError
  end.

(** The bytes of the first character of a string: the width of a UTF-8
    sequence is read off its first byte. *)
Definition utf8_width (c : ascii) : nat :=
  let n := N_of_ascii c in
  if (n <? 128)%N then 1%nat
  else if (n <? 224)%N then 2%nat
  else if (n <? 240)%N then 3%nat
  else 4%nat.

(** The characters of a string, [fuel] bounding their number. *)
Fixpoint chars (fuel : nat) (s : string) : list string :=
  match fuel, s with
  | S fuel', String c rest =>
      let w := (utf8_width c - 1)%nat in
      String c (substring 0 w rest)
        :: chars fuel' (substring w (String.length rest - w) rest)
  | _, _ => []
  end.

(** [v[0]] *)
Definition getitem0 (v : json) : R json :=
  match v with
  | JArr items =>
      match items with
      | x :: _ => ret x
      | [] => raise IndexError
      end
  | JStr s =>
      match chars 1 s with
      | c :: _ => ret (JStr c)
      | [] => raise IndexError
      end
  | JObj _ => raise KeyError
  | _ => raise TypeError
  end.

(** [xs[::step]] on a list: the items at 0, [step], [2 * step], ...;
    [skip] items are passed over before the next one is taken. *)
Fixpoint every {A : Type} (step skip : nat) (xs : list A) : list A :=
  match xs with
  | [] => []
  | x :: rest =>
      match skip with
      | O => x :: every step (step - 1) rest
      | S skip' => every step skip' rest
      end
  end.

(** [v[::8]], as the list of its items.  A dict is not sliceable (before
    Python 3.12 the slice is refused as a key, since then it is a key that
    is not there). *)
Definition slice8 (v : json) : R (list json) :=
  match v with
  | JArr items => ret (every 8 0 items)
  | JStr s => ret (map JStr (every 8 0 (chars (String.length s) s)))
  | _ => raise TypeError
  end.

(** [v.get(key, default)] *)
Definition method_get (v : json) (key : string) (default : json) : R json :=
  match v with
  | JObj fields =>
      match lookup fields key with
      | Some x => ret x
      | None => ret default
      end
  | _ => raise AttributeError
  end.

(** *** The environment *)

(** The parameters of [requests.get(url, params=..., timeout=10)]. *)
Record request : Type := mkRequest {
  url : string;
  q : string;
  appid : string;
  units : string
}.

(** What [response.json()] does: a value, or an exception, which is a
    [RequestException] or not. *)
Inductive json_outcome : Type :=
| Parsed (v : json)
| JsonRaises (request_exception : bool).

(** What [requests.get] does: a response, or an exception, which is a
    [RequestException] or not. *)
Inductive http_outcome : Type :=
| Response (status_code : Z) (body : json_outcome)
| HttpRaises (request_exception : bool).

Record env : Type := mkEnv {
  (** [s.strip()], [s.title()], [s.upper()], [s.lower()] on a city name *)
  str_strip : string -> string;
  str_title : string -> string;
  str_upper : string -> string;
  str_lower : string -> string;
  (** the key read from the secrets *)
  API_KEY : string;
  (** the answer to a request, given the requests made before it *)
  http_get : list request -> request -> http_outcome;
  (** [datetime.fromtimestamp(v).strftime('%a, %b %d')] *)
  strftime : json -> R string
}.

Definition BASE_URL : string := "http://api.openweathermap.org/data/2.5/weather".
Definition FORECAST_URL : string := "http://api.openweathermap.org/data/2.5/forecast".

(** *** get_weather and get_forecast *)

(** A computation that makes requests: it returns or raises, and leaves the
    trace of the requests made, longer than it found it. *)
Definition N (A : Type) : Type := list request -> R A * list request.

Definition city_variations (E : env) (city : string) : list string :=
  let city_cleaned := str_strip E city in
  [city_cleaned;
   str_title E city_cleaned;
   str_upper E city_cleaned;
   str_lower E city_cleaned].

(** The loop [for city_try in city_variations], and the [return] after it. *)
Fixpoint try_variations (E : env) (target : string) (not_found : json)
    (variations : list string) : N json :=
  fun trace =>
    match variations with
    | [] => (ret not_found, trace)
    | city_try :: rest =>
        let params := mkRequest target city_try (API_KEY E) "metric" in
        let trace' := (trace ++ [params])%list in
        match http_get E trace params with
        | Response status_code body =>
            if status_code =? 200 then
              match body with
              | Parsed v => (ret v, trace')
              | JsonRaises true => try_variations E target not_found rest trace'
              | JsonRaises false => (raise Uncaught, trace')
              end
            else try_variations E target not_found rest trace'
        | HttpRaises true => try_variations E target not_found rest trace'
        | HttpRaises false => (raise Uncaught, trace')
        end
    end.

Definition get_weather (E : env) (city : string) : N json :=
  try_variations E BASE_URL
    (JObj [("cod", JNum (Dyn.Int 404)); ("message", JStr "City not found")])
    (city_variations E city).

Definition get_forecast (E : env) (city : string) : N json :=
  try_variations E FORECAST_URL
    (JObj [("cod", JStr "404"); ("message", JStr "City not found")])
    (city_variations E city).

(** *** display_forecast *)

(** [v.title()], with the title-casing of the environment. *)
Definition method_title (E : env) (v : json) : R string :=
  match v with
  | JStr s => ret (str_title E s)
  | _ => raise AttributeError
  end.

(** The three lists [dates], [temps] and [descriptions]. *)
Record columns : Type := mkColumns {
  dates : list string;
  temps : list json;
  descriptions : list string
}.

(** The body of [for item in forecast_list[:5]]. *)
Definition forecast_item (E : env) (item : json) (cols : columns) : R columns :=
  dt <- getitem item "dt" ;;
  date <- strftime E dt ;;
  main <- getitem item "main" ;;
  temp <- getitem main "temp" ;;
  weather <- getitem item "weather" ;;
  weather0 <- getitem0 weather ;;
  description <- getitem weather0 "description" ;;
  desc <- method_title E description ;;
  ret (mkColumns (dates cols ++ [date])
                 (temps cols ++ [temp])
                 (descriptions cols ++ [desc])).

Fixpoint forecast_loop (E : env) (items : list json) (cols : columns)
  : R columns :=
  match items with
  | [] => ret cols
  | item :: rest =>
      cols' <- forecast_item E item cols ;;
      forecast_loop E rest cols'
  end.

(** The columns [display_forecast] hands to [pd.DataFrame] for the chart
    and the table. *)
Definition display_forecast (E : env) (data : json) : R columns :=
  entries <- getitem data "list" ;;
  forecast_list <- slice8 entries ;;
  forecast_loop E (firstn 5 forecast_list) (mkColumns [] [] []).

(** *** The script *)

(** [st.session_state]: a key that was never assigned is [None] here. *)
Record session : Type := mkSession {
  last_city : option string;
  weather_loaded : option bool;
  search_attempted : option bool;
  weather_data : option json;
  forecast_data : option json;
  error_data : option json
}.

Definition new_session : session :=
  mkSession None None None None None None.

(** [v and v.get('cod') == k] as a condition, for a test [eq] against a
    literal. *)
Definition has_cod (eq : json -> bool) (v : json) : R bool :=
  if truthy v
  then cod <- method_get v "cod" JNull ;; ret (eq cod)
  else ret false.

(** The first part of the script: the search, when the city is not blank
    and the button was pressed or the city is not the one of the last
    search.  The session keeps what was assigned before an exception. *)
Definition search (E : env) (city : string) (search_button : bool)
    (s : session) (trace : list request)
  : R unit * session * list request :=
  if negb (city =? "")%string
     && negb (str_strip E city =? "")%string
     && (search_button
         || match last_city s with
            | None => true
            | Some last => negb (last =? city)%string
            end)
  then
    let s1 := mkSession (Some city) (Some false) (Some true)
                (weather_data s) (forecast_data s) (error_data s) in
    match get_weather E city trace with
    | (inl e, trace1) => (inl e, s1, trace1)
    | (inr weather, trace1) =>
        match get_forecast E city trace1 with
        | (inl e, trace2) => (inl e, s1, trace2)
        | (inr forecast, trace2) =>
            match has_cod (fun cod => eq_int cod 200) weather with
            | inl e => (inl e, s1, trace2)
            | inr true =>
                (inr tt,
                 mkSession (Some city) (Some true) (Some true)
                   (Some weather) (Some forecast) (Some JNull),
                 trace2)
            | inr false =>
                (inr tt,
                 mkSession (Some city) (Some false) (Some true)
                   (weather_data s) (forecast_data s) (Some weather),
                 trace2)
            end
        end
    end
  else (inr tt, s, trace).

(** The branch the second part of the script takes, with what it has read
    for it: the weather branch with the two values of the session, one of
    the two error messages, or no branch.  In the weather branch the script
    goes on to render the page from the two values (the header, the current
    weather, the advice, the voice report, the forecast); those lines assign
    nothing to the session, they can raise (on a reading without ["name"],
    for one), and [WeatherPage] says nothing of them. *)
Inductive page : Type :=
| WeatherPage (weather forecast : json)
| CityNotFound (city : string)
| ErrorMessage (error_msg : string) (api_key_hint : bool)
| NoPage.

(** [st.session_state.get(key)] as a condition. *)
Definition is_set (v : option json) : bool :=
  match v with
  | Some x => truthy x
  | None => false
  end.

(** The second part of the script, up to the branch it takes: the test of
    [weather_loaded] with the two readings of the session that follow it, or
    the whole of the error branch, or neither.  It returns the branch, or
    raises what these lines raise. *)
Definition show (s : session) : R page :=
  if match weather_loaded s with Some b => b | None => false end then
    match weather_data s, forecast_data s with
    | Some weather, Some forecast => ret (WeatherPage weather forecast)
    | _, _ => raise AttributeError
    end
  else if match search_attempted s with Some b => b | None => false end
          && is_set (error_data s) then
    match error_data s with
    | None => raise AttributeError
    | Some error_data =>
        error_msg <- (if truthy error_data
                      then method_get error_data "message" (JStr "Unknown error")
                      else ret (JStr "No response from server")) ;;
        match error_msg with
        | JStr msg =>
            not_found <- (if Py.contains "not found" (Py.lower msg) then ret true
                          else cod <- method_get error_data "cod" JNull ;;
                               ret (eq_int cod 404)) ;;
            if (not_found : bool) then
              match last_city s with
              | Some city => ret (CityNotFound city)
              | None => raise AttributeError
              end
            else ret (ErrorMessage msg (Py.contains "Invalid API key" msg))
        | _ => raise AttributeError
        end
    end
  else ret NoPage.

(** The forecast part of the weather page: the columns, or [None] for the
    "Forecast data unavailable" warning. *)
Definition forecast_section (E : env) (forecast : json) : R (option columns) :=
  ok <- has_cod (fun cod => eq_str cod "200") forecast ;;
  if (ok : bool) then cols <- display_forecast E forecast ;; ret (Some cols)
  else ret None.

(** One run of the script, up to the branch of its second part: the
    search, then [show].  What it returns in the weather branch is the
    branch taken and not the end of the script, which still has the page to
    render. *)
Definition run (E : env) (city : string) (search_button : bool)
    (s : session) (trace : list request)
  : R page * session * list request :=
  match search E city search_button s trace with
  | (inl e, s', trace') => (inl e, s', trace')
  | (inr _, s', trace') => (show s', s', trace')
  end.

(** The sessions the script can be in: it starts with a new session and
    each run, whatever is typed or pressed, goes on from where the last one
    left it, whether it ended or raised.  Only the search assigns to the
    session, so the session a run leaves is the one its search leaves. *)
Inductive reachable (E : env) : session -> list request -> Prop :=
| reachable_new : reachable E new_session []
| reachable_run (s : session) (trace : list request)
    (city : string) (search_button : bool) :
    reachable E s trace ->
    reachable E (snd (fst (run E city search_button s trace)))
                (snd (run E city search_button s trace)).

(** *** The clothing advice of the weather page *)

(** A JSON value as an argument of [get_clothing_advice].  [True] and
    [False] are the integers 1 and 0; a list or a dict is refused by the
    comparison with an int as [None] is. *)
Definition to_value (v : json) : Dyn.value :=
  match v with
  | JNum x => Dyn.VNum x
  | JBool b => Dyn.VNum (Dyn.Int (if b then 1 else 0))
  | JStr s => Dyn.VStr s
  | _ => Dyn.VNone
  end.

Definition of_exn (e : Dyn.exn) : exn :=
  match e with
  | Dyn.TypeError => TypeError
  | Dyn.AttributeError => AttributeError
  | _ => Uncaught
  end.

(** The lines of the section "Clothing Advice": the four readings of
    [weather_data], then [get_clothing_advice(temp, condition, humidity)];
    the result is the content of the list returned and the flag. *)
Definition advice_section (E : env) (weather_data : json)
  : R (list string * bool) :=
  main <- getitem weather_data "main" ;;
  temp <- getitem main "temp" ;;
  main <- getitem weather_data "main" ;;
  feels_like <- getitem main "feels_like" ;;
  weather <- getitem weather_data "weather" ;;
  weather0 <- getitem0 weather ;;
  description <- getitem weather0 "description" ;;
  condition <- method_title E description ;;
  main <- getitem weather_data "main" ;;
  humidity <- getitem main "humidity" ;;
  match Dyn.get_clothing_advice (to_value temp) (Dyn.VStr condition)
          (to_value humidity) [] with
  | inl e => raise (of_exn e)
  | inr ((advice_list, stay_indoor), heap) =>
      match nth_error heap advice_list with
      | Some lines => ret (lines, stay_indoor)
      | None => raise Uncaught
      end
  end.

(** *** Vocabulary of the properties *)

(** The request the loop makes for a variation. *)
Definition request_for (E : env) (target : string) (city_try : string)
  : request :=
  mkRequest target city_try (API_KEY E) "metric".

(** The answer to the [j]-th request of a loop that started with [trace]
    and went through the variations before it. *)
Definition answer (E : env) (target : string) (variations : list string)
    (trace : list request) (j : nat) : option http_outcome :=
  match nth_error variations j with
  | Some city_try =>
      Some (http_get E
              (trace ++ map (request_for E target) (firstn j variations))
              (request_for E target city_try))
  | None => None
  end.

(** The answers after which the loop goes to the next variation: a status
    other than 200, or a [RequestException]. *)
Definition failed (o : http_outcome) : bool :=
  match o with
  | Response status_code body =>
      if status_code =? 200
      then match body with JsonRaises true => true | _ => false end
      else true
  | HttpRaises request_exception => request_exception
  end.

(** The search of a run takes place. *)
Definition searches (E : env) (city : string) (search_button : bool)
    (s : session) : bool :=
  negb (city =? "")%string
  && negb (str_strip E city =? "")%string
  && (search_button
      || match last_city s with
         | None => true
         | Some last => negb (last =? city)%string
         end).

(** What the script relies on when it reads the session. *)
Record session_ok (s : session) : Prop := mkSessionOk {
  loaded_has_data :
    weather_loaded s = Some true ->
    exists weather forecast,
      weather_data s = Some weather /\ forecast_data s = Some forecast
      /\ has_cod (fun cod => eq_int cod 200) weather = inr true;
  error_is_dict :
    is_set (error_data s) = true ->
    exists fields, error_data s = Some (JObj fields);
  attempted_has_city :
    search_attempted s <> None -> last_city s <> None
}.

(** An environment for examples: the server gives the answers of a list,
    one per request, and then only timeouts; names are left as they are,
    but for [lower]; every timestamp is written "Mon, Jan 01". *)
Definition scripted (answers : list http_outcome) : env :=
  mkEnv (fun s => s) (fun s => s) (fun s => s) Py.lower "key"
    (fun trace _ => nth (List.length trace) answers (HttpRaises true))
    (fun _ => ret "Mon, Jan 01").

(** A forecast entry for examples, and a forecast of nine entries of which
    only the first and the last are entries. *)
Definition example_item (temp : Z) (description : string) : json :=
  JObj [("dt", JNum (Dyn.Int 0));
        ("main", JObj [("temp", JNum (Dyn.Int temp))]);
        ("weather", JArr [JObj [("description", JStr description)]])].

Definition example_entries : list json :=
  [example_item 20 "clear sky"; JNull; JNull; JNull; JNull; JNull; JNull;
   JNull; example_item 12 "light rain"].

Definition example_forecast : json :=
  JObj [("cod", JStr "200"); ("list", JArr example_entries)].

(** A weather reading for examples: 18.5 degrees, light rain, humidity 85. *)
Definition example_main : json :=
  JObj [("temp", JNum (Dyn.Float (37 # 2)));
        ("feels_like", JNum (Dyn.Float (35 # 2)));
        ("pressure", JNum (Dyn.Int 1012));
        ("humidity", JNum (Dyn.Int 85))].

Definition example_weather : json :=
  JObj [("cod", JNum (Dyn.Int 200));
        ("name", JStr "Paris");
        ("sys", JObj [("country", JStr "FR")]);
        ("main", example_main);
        ("wind", JObj [("speed", JNum (Dyn.Float (41 # 10)))]);
        ("visibility", JNum (Dyn.Int 10000));
        ("weather", JArr [JObj [("description", JStr "light rain")]])].

End App.

(** * Properties *)

(** ** Comparisons *)

Lemma lt_int_true (x : Q) (k : Z) :
  Py.lt_int x k = true <-> (x < inject_Z k)%Q.
Proof.
  unfold Py.lt_int. rewrite negb_true_iff, <- not_true_iff_false, Qle_bool_iff.
  split; intro H.
  - now apply Qnot_le_lt.
  - now apply Qlt_not_le.
Qed.

Lemma lt_int_false (x : Q) (k : Z) :
  Py.lt_int x k = false <-> (inject_Z k <= x)%Q.
Proof.
  unfold Py.lt_int. now rewrite negb_false_iff, Qle_bool_iff.
Qed.

Lemma gt_int_inject (z k : Z) :
  Py.gt_int (inject_Z z) k = (z >? k).
Proof.
  unfold Py.gt_int, Qle_bool, inject_Z; simpl.
  rewrite !Z.mul_1_r, Z.gtb_ltb, Z.ltb_antisym. reflexivity.
Qed.

(** ** The temperature bands *)

Lemma no_gap (a b : Z) (t : Q) :
  (inject_Z a <= t)%Q -> (t < inject_Z b)%Q -> (b <= a)%Z -> False.
Proof.
  intros Hlo Hhi Hba.
  pose proof (Qle_lt_trans _ _ _ Hlo Hhi) as Hab.
  rewrite <- Zlt_Qlt in Hab. lia.
Qed.

Lemma in_band_unique (b b' : Spec.band) (t : Q) :
  Spec.in_band b t -> Spec.in_band b' t -> b = b'.
Proof.
  unfold Spec.in_band.
  destruct b, b'; simpl; intros [Hlo Hhi] [Hlo' Hhi'];
    try reflexivity; exfalso;
    match goal with
    | L : (inject_Z ?a <= t)%Q, U : (t < inject_Z ?b)%Q |- _ =>
        apply (no_gap a b t L U); lia
    end.
Qed.

Lemma temperature_rule_band (t : Q) (st : locals) :
  exists b,
    Spec.in_band b t
    /\ temperature_rule t st
       = mkLocals (advice st ++ [Spec.band_line b])
                  (stay_indoor st || Spec.band_stay_indoor b).
Proof.
  unfold temperature_rule.
  destruct (Py.lt_int t (-10)) eqn:H1;
    [exists Spec.ExtremeCold|
  destruct (Py.lt_int t 0) eqn:H2;
    [exists Spec.Freezing|
  destruct (Py.lt_int t 10) eqn:H3;
    [exists Spec.Cold|
  destruct (Py.lt_int t 15) eqn:H4;
    [exists Spec.Cool|
  destruct (Py.lt_int t 20) eqn:H5;
    [exists Spec.Mild|
  destruct (Py.lt_int t 25) eqn:H6;
    [exists Spec.Pleasant|
  destruct (Py.lt_int t 30) eqn:H7;
    [exists Spec.Warm|
  destruct (Py.lt_int t 35) eqn:H8;
    [exists Spec.Hot|exists Spec.ExtremeHeat]]]]]]]];
  rewrite ?lt_int_true, ?lt_int_false in *;
  (split; [unfold Spec.in_band; simpl; auto|]);
  unfold set_stay_indoor, append_advice; simpl;
  rewrite ?orb_true_r, ?orb_false_r; reflexivity.
Qed.

(** ** Strings: [in] and [lower] *)

Lemma prefix_spec (p s : string) :
  prefix p s = true <-> exists post, s = p ++ post.
Proof.
  revert s. induction p as [|c p IH]; intros s.
  - split; [intros _; now exists s | now destruct s].
  - destruct s as [|d s]; simpl.
    + split; [discriminate | intros [post H]; discriminate].
    + destruct (ascii_dec c d) as [->|Hcd].
      * rewrite IH. split; intros [post H]; exists post.
        -- now rewrite H.
        -- now inversion H.
      * split; [discriminate | intros [post H]; inversion H; congruence].
Qed.

Lemma contains_spec (needle hay : string) :
  Py.contains needle hay = true <-> exists pre post, hay = pre ++ needle ++ post.
Proof.
  induction hay as [|c hay IH]; cbn [Py.contains];
    destruct (prefix needle _) eqn:Hp.
  - apply prefix_spec in Hp as [post Hp].
    split; [intros _; now exists "", post | reflexivity].
  - split; [discriminate|]. intros [pre [post H]].
    destruct pre; [|discriminate]. simpl in H.
    assert (prefix needle "" = true) by (apply prefix_spec; now exists post).
    congruence.
  - apply prefix_spec in Hp as [post Hp].
    split; [intros _; now exists "", post | reflexivity].
  - rewrite IH. split; intros [pre [post H]].
    + exists (String c pre), post. simpl. now rewrite H.
    + destruct pre as [|d pre]; simpl in H.
      * assert (prefix needle (String c hay) = true)
          by (apply prefix_spec; now exists post).
        congruence.
      * inversion H. now exists pre, post.
Qed.

Lemma lower_app (a b : string) :
  Py.lower (a ++ b) = Py.lower a ++ Py.lower b.
Proof.
  induction a as [|c a IH]; simpl; [reflexivity | now rewrite IH].
Qed.

Lemma lower_split (s a b : string) :
  Py.lower s = a ++ b ->
  exists a' b', s = a' ++ b' /\ Py.lower a' = a /\ Py.lower b' = b.
Proof.
  revert s. induction a as [|c a IH]; intros s H; simpl in H.
  - now exists "", s.
  - destruct s as [|d s]; simpl in H; [discriminate|].
    inversion H as [[Hc Hs]].
    destruct (IH s Hs) as [a' [b' [-> [Ha Hb]]]].
    exists (String d a'), b'. simpl. now rewrite Ha.
Qed.

(** The search of the source, [kw in condition.lower()] with a lower-case
    keyword, is the case-insensitive substring search. *)
Lemma contains_lower (kw s : string) :
  Py.lower kw = kw ->
  Py.contains kw (Py.lower s) = true <-> Spec.occurs_ci kw s.
Proof.
  intros Hkw. rewrite contains_spec. unfold Spec.occurs_ci. split.
  - intros [pre [post H]].
    apply lower_split in H as [pre' [rest [-> [Hpre Hrest]]]].
    apply lower_split in Hrest as [mid [post' [-> [Hmid Hpost]]]].
    exists pre', mid, post'. split; [reflexivity | congruence].
  - intros [pre [mid [post [-> Hmid]]]].
    exists (Py.lower pre), (Py.lower post).
    rewrite !lower_app. congruence.
Qed.

(** ** The condition rules *)

Lemma mentionsb_spec (c : Spec.condition_class) (s : string) :
  mentionsb c s = true <-> Spec.mentions c s.
Proof.
  unfold mentionsb, Spec.mentions.
  rewrite existsb_exists, Exists_exists.
  split; intros [kw [Hin H]]; exists kw; (split; [assumption|]);
    (apply contains_lower in H || apply contains_lower);
    try assumption;
    destruct c; simpl in Hin; intuition (subst; reflexivity).
Qed.

Lemma mentionsb_false (c : Spec.condition_class) (s : string) :
  mentionsb c s = false <-> ~ Spec.mentions c s.
Proof.
  rewrite <- mentionsb_spec. now destruct (mentionsb c s).
Qed.

Lemma condition_rule_mentionsb (s : string) (st : locals) :
  condition_rule s st =
  if mentionsb Spec.Rain s then append_advice Line.rain st
  else if mentionsb Spec.Snow s then append_advice Line.snow st
  else if mentionsb Spec.Storm s then set_stay_indoor (append_advice Line.storm st)
  else if mentionsb Spec.Fog s then append_advice Line.fog st
  else st.
Proof.
  unfold condition_rule, mentionsb. simpl. now rewrite !orb_false_r.
Qed.

Lemma condition_rule_cases (s : string) (st : locals) :
  (exists c,
      Spec.wins c s
      /\ condition_rule s st
         = mkLocals (advice st ++ [Spec.condition_line c])
                    (stay_indoor st || Spec.condition_stay_indoor c))
  \/ ((forall c, ~ Spec.mentions c s) /\ condition_rule s st = st).
Proof.
  rewrite condition_rule_mentionsb.
  destruct (mentionsb Spec.Rain s) eqn:H1;
    [left; exists Spec.Rain|
  destruct (mentionsb Spec.Snow s) eqn:H2;
    [left; exists Spec.Snow|
  destruct (mentionsb Spec.Storm s) eqn:H3;
    [left; exists Spec.Storm|
  destruct (mentionsb Spec.Fog s) eqn:H4;
    [left; exists Spec.Fog|right]]]];
  rewrite ?mentionsb_spec, ?mentionsb_false in *.
  1-4: split;
    [ split; [assumption | simpl; repeat constructor; assumption]
    | unfold set_stay_indoor, append_advice; simpl;
      rewrite ?orb_true_r, ?orb_false_r; reflexivity ].
  split; [intros []; assumption | reflexivity].
Qed.

(** ** The shape of the result of [get_clothing_advice] *)

Lemma humidity_rule_part (h : Z) (st : locals) :
  humidity_rule h st
  = mkLocals (advice st ++ Spec.humidity_part h) (stay_indoor st).
Proof.
  unfold humidity_rule, Spec.humidity_part. rewrite Z.gtb_ltb.
  destruct (80 <? h); [reflexivity|].
  rewrite app_nil_r. now destruct st.
Qed.

Lemma get_clothing_advice_shape (t : Q) (c : string) (h : Z) :
  exists b oc,
    Spec.in_band b t /\ Spec.matched oc c
    /\ get_clothing_advice t c h
       = (Spec.band_line b :: Spec.condition_part oc ++ Spec.humidity_part h,
          Spec.band_stay_indoor b || Spec.condition_flag oc).
Proof.
  unfold get_clothing_advice.
  destruct (temperature_rule_band t initial) as [b [Hb Ht]].
  rewrite Ht. simpl advice. simpl stay_indoor.
  exists b.
  destruct (condition_rule_cases c
              (mkLocals [Spec.band_line b] (Spec.band_stay_indoor b)))
    as [[k [Hk Hc]] | [Hnone Hc]]; rewrite Hc, humidity_rule_part.
  - exists (Some k). split; [assumption | split; [assumption | reflexivity]].
  - exists None. simpl Spec.condition_flag. rewrite orb_false_r.
    split; [assumption | split; [assumption | reflexivity]].
Qed.

Lemma wins_unique (c c' : Spec.condition_class) (s : string) :
  Spec.wins c s -> Spec.wins c' s -> c = c'.
Proof.
  intros [Hm He] [Hm' He'].
  destruct c, c'; try reflexivity; exfalso; simpl in He, He';
    repeat match goal with
           | H : Forall _ (_ :: _) |- _ => inversion H; clear H; subst
           end;
    contradiction.
Qed.

(** ** The advice lines are pairwise distinct *)

Ltac distinct_strings :=
  let H := fresh "H" in
  intro H; apply String.eqb_eq in H; vm_compute in H; discriminate H.

Lemma band_line_inj (b b' : Spec.band) :
  Spec.band_line b = Spec.band_line b' -> b = b'.
Proof.
  destruct b, b'; try (intros _; reflexivity); distinct_strings.
Qed.

Lemma condition_line_inj (c c' : Spec.condition_class) :
  Spec.condition_line c = Spec.condition_line c' -> c = c'.
Proof.
  destruct c, c'; try (intros _; reflexivity); distinct_strings.
Qed.

Lemma band_line_not_condition (b : Spec.band) (c : Spec.condition_class) :
  Spec.band_line b <> Spec.condition_line c.
Proof.
  destruct b, c; distinct_strings.
Qed.

Lemma band_line_not_humid (b : Spec.band) :
  Spec.band_line b <> Line.humid.
Proof.
  destruct b; distinct_strings.
Qed.

Lemma condition_line_not_humid (c : Spec.condition_class) :
  Spec.condition_line c <> Line.humid.
Proof.
  destruct c; distinct_strings.
Qed.

Lemma in_humidity_part (l : string) (h : Z) :
  In l (Spec.humidity_part h) <-> l = Line.humid /\ 80 < h.
Proof.
  unfold Spec.humidity_part. destruct (80 <? h) eqn:E.
  - apply Z.ltb_lt in E. simpl. intuition.
  - apply Z.ltb_ge in E. simpl. intuition lia.
Qed.

Lemma in_condition_part (l : string) (oc : option Spec.condition_class) :
  In l (Spec.condition_part oc) <-> exists c, oc = Some c /\ l = Spec.condition_line c.
Proof.
  destruct oc as [c|]; simpl.
  - split.
    + intros [H|[]]. now exists c.
    + intros [c' [[= ->] ->]]. now left.
  - split; [intros [] | intros [c' [[=] _]]].
Qed.

(** ** The claims *)

(** C1. For every temperature exactly one of the nine bands contains it, and
    it is the band of the line [get_clothing_advice] puts first; no line of
    another band is in the result.  Each of -10, 0, 10, 15, 20, 25, 30 and 35
    selects the band of which it is the inclusive lower bound; -10 gives the
    freezing line without the stay-indoor flag and 35 the extreme-heat line
    with it. *)
Theorem temperature_band_exactly_one :
  (forall (t : Q) (c : string) (h : Z),
      exists b,
        Spec.in_band b t
        /\ (forall b', Spec.in_band b' t -> b' = b)
        /\ temperature_rule t initial
           = mkLocals [Spec.band_line b] (Spec.band_stay_indoor b)
        /\ nth_error (fst (get_clothing_advice t c h)) 0
           = Some (Spec.band_line b)
        /\ (forall b', In (Spec.band_line b') (fst (get_clothing_advice t c h))
                       -> b' = b))
  /\ (forall b k,
         Spec.lower_bound b = Some k ->
         Spec.in_band b (inject_Z k)
         /\ temperature_rule (inject_Z k) initial
            = mkLocals [Spec.band_line b] (Spec.band_stay_indoor b))
  /\ map (fun b => Spec.lower_bound b) Spec.bands
     = [None; Some (-10); Some 0; Some 10; Some 15; Some 20; Some 25; Some 30;
        Some 35]
  /\ temperature_rule (inject_Z (-10)) initial = mkLocals [Line.freezing] false
  /\ temperature_rule (inject_Z 35) initial = mkLocals [Line.extreme_heat] true.
Proof.
  split; [|split; [|split; [reflexivity | split; reflexivity]]].
  - intros t c h.
    destruct (get_clothing_advice_shape t c h) as [b [oc [Hb [_ Hr]]]].
    exists b. rewrite Hr. simpl fst.
    split; [assumption|].
    split; [intros b' Hb'; exact (in_band_unique b' b t Hb' Hb)|].
    split.
    + destruct (temperature_rule_band t initial) as [b0 [Hb0 Ht]].
      now rewrite (in_band_unique b b0 t Hb Hb0).
    + split; [reflexivity|].
      intros b' [Hhd|Htl].
      * symmetry. now apply band_line_inj.
      * exfalso. apply in_app_or in Htl as [Hc|Hh].
        -- apply in_condition_part in Hc as [k [_ Hk]].
           exact (band_line_not_condition b' k Hk).
        -- apply in_humidity_part in Hh as [Hh _].
           exact (band_line_not_humid b' Hh).
  - intros b k Hk.
    destruct b; simpl in Hk; inversion Hk; subst k;
      (split; [unfold Spec.in_band; simpl; split;
               try exact I; try apply Qle_refl; reflexivity
              | reflexivity]).
Qed.

Lemma get_clothing_advice_flag (t : Q) (c : string) (h : Z) :
  snd (get_clothing_advice t c h)
  = stay_indoor (condition_rule c (temperature_rule t initial)).
Proof.
  unfold get_clothing_advice. simpl snd. now rewrite humidity_rule_part.
Qed.

Lemma mentions_two (c : Spec.condition_class) (k1 k2 s : string) :
  Spec.keywords c = [k1; k2] ->
  Spec.mentions c s <-> Spec.occurs_ci k1 s \/ Spec.occurs_ci k2 s.
Proof.
  unfold Spec.mentions. intros ->.
  rewrite !Exists_cons, Exists_nil. tauto.
Qed.

Lemma mentions_one (c : Spec.condition_class) (k s : string) :
  Spec.keywords c = [k] ->
  Spec.mentions c s <-> Spec.occurs_ci k s.
Proof.
  unfold Spec.mentions. intros ->.
  rewrite Exists_cons, Exists_nil. tauto.
Qed.

Lemma wins_storm (s : string) :
  Spec.wins Spec.Storm s
  <-> (Spec.occurs_ci "storm" s \/ Spec.occurs_ci "thunder" s)
      /\ ~ (Spec.occurs_ci "rain" s \/ Spec.occurs_ci "drizzle" s)
      /\ ~ Spec.occurs_ci "snow" s.
Proof.
  unfold Spec.wins. simpl Spec.earlier.
  rewrite <- (mentions_two Spec.Storm "storm" "thunder" s eq_refl).
  rewrite <- (mentions_two Spec.Rain "rain" "drizzle" s eq_refl).
  rewrite <- (mentions_one Spec.Snow "snow" s eq_refl).
  split.
  - intros [Hm Hf]. inversion Hf as [|? ? Hr Hf']; subst.
    inversion Hf' as [|? ? Hs _]; subst. tauto.
  - intros [Hm [Hr Hs]]. split; [assumption | repeat constructor; assumption].
Qed.

Lemma stay_indoor_characterised (t : Q) (c : string) (h : Z) :
  snd (get_clothing_advice t c h) = true
  <-> (t < inject_Z (-10))%Q \/ (inject_Z 35 <= t)%Q \/ Spec.wins Spec.Storm c.
Proof.
  destruct (get_clothing_advice_shape t c h) as [b [oc [Hb [Hoc Hr]]]].
  rewrite Hr. simpl snd. rewrite orb_true_iff. split.
  - intros [Hband | Hcond].
    + destruct b; try discriminate Hband; destruct Hb as [Hlo Hhi]; simpl in *;
        auto.
    + destruct oc as [[]|]; try discriminate Hcond. simpl in Hoc. auto.
  - intros [Hcold | [Hheat | Hstorm]].
    + left.
      assert (Hx : Spec.in_band Spec.ExtremeCold t) by (split; simpl; auto).
      now rewrite (in_band_unique b _ t Hb Hx).
    + left.
      assert (Hx : Spec.in_band Spec.ExtremeHeat t) by (split; simpl; auto).
      now rewrite (in_band_unique b _ t Hb Hx).
    + right. destruct oc as [k|]; simpl in Hoc.
      * now rewrite (wins_unique k _ c Hoc Hstorm).
      * destruct Hstorm as [Hm _]. now apply Hoc in Hm.
Qed.

(** C2, as stated, fails: at 20 degrees the description
    "light rain during thunderstorm" contains "storm", and the flag is not
    raised, because the rain rule comes first. *)
Lemma stay_indoor_rain_before_storm :
  ~ (snd (get_clothing_advice (20 # 1) "light rain during thunderstorm" 50) = true
     <-> Spec.stay_indoor_when (20 # 1) "light rain during thunderstorm").
Proof.
  intros [_ H].
  assert (Hflag : snd (get_clothing_advice (20 # 1)
                         "light rain during thunderstorm" 50) = true).
  { apply H. right. right. left. apply contains_lower; reflexivity. }
  vm_compute in Hflag. discriminate Hflag.
Qed.

(** C2, amended.  The flag returned by [get_clothing_advice] is true exactly
    when t < -10, or t >= 35, or the description contains "storm" or
    "thunder" and none of "rain", "drizzle" and "snow", case-insensitively;
    the humidity does not affect it. *)
Theorem stay_indoor_iff (t : Q) (c : string) (h : Z) :
  (snd (get_clothing_advice t c h) = true <-> Spec.stay_indoor_when_reached t c)
  /\ (forall h', snd (get_clothing_advice t c h') = snd (get_clothing_advice t c h)).
Proof.
  split.
  - unfold Spec.stay_indoor_when_reached.
    rewrite <- wins_storm. apply stay_indoor_characterised.
  - intros h'. now rewrite !get_clothing_advice_flag.
Qed.

Lemma matched_wins (oc : option Spec.condition_class) (c : Spec.condition_class)
    (s : string) :
  Spec.matched oc s -> Spec.wins c s -> oc = Some c.
Proof.
  destruct oc as [k|]; simpl; intros Hoc Hc.
  - now rewrite (wins_unique k c s Hoc Hc).
  - destruct Hc as [Hm _]. now apply Hoc in Hm.
Qed.

Lemma count_condition_lines (b : Spec.band) (oc : option Spec.condition_class)
    (h : Z) :
  Spec.count_among Spec.condition_lines
    (Spec.band_line b :: Spec.condition_part oc ++ Spec.humidity_part h)
  = List.length (Spec.condition_part oc).
Proof.
  unfold Spec.humidity_part.
  destruct b, oc as [[]|], (80 <? h); vm_compute; reflexivity.
Qed.

(** *** Case *)

Lemma case_pair_capital (a l : ascii) :
  In (a, l) Spec.case_pairs ->
  a = ascii_of_N (N_of_ascii l - 32) /\ Py.lower_char a = l
  /\ Py.lower_char l = l.
Proof.
  unfold Spec.case_pairs. simpl.
  intros H.
  repeat (destruct H as [[= <- <-] | H]; [repeat split; reflexivity|]).
  contradiction.
Qed.

(** [lower] leaves a character as it is, or it is a capital and [lower]
    gives its small letter. *)
Lemma lower_char_cases (a : ascii) :
  Py.lower_char a = a \/ In (a, Py.lower_char a) Spec.case_pairs.
Proof.
  destruct a as [[] [] [] [] [] [] [] []];
    first [left; reflexivity
          | right; unfold Spec.case_pairs; simpl;
            repeat (first [left; reflexivity | right]) ].
Qed.

Lemma same_letter_lower (a b : ascii) :
  Spec.same_letter a b <-> Py.lower_char a = Py.lower_char b.
Proof.
  split.
  - intros [-> | [H | H]]; [reflexivity | |];
      apply case_pair_capital in H as [_ [H1 H2]]; congruence.
  - intros H.
    destruct (lower_char_cases a) as [Ha | Ha],
             (lower_char_cases b) as [Hb | Hb].
    + left. congruence.
    + right. right. now rewrite Ha in H; rewrite H.
    + right. left. now rewrite Hb in H; rewrite <- H.
    + left.
      destruct (case_pair_capital _ _ Ha) as [Ea _].
      destruct (case_pair_capital _ _ Hb) as [Eb _].
      congruence.
Qed.

(** Two strings have the same [lower] exactly when they differ at most by
    the case of their letters. *)
Lemma same_up_to_case_lower (s s' : string) :
  Spec.same_up_to_case s s' <-> Py.lower s = Py.lower s'.
Proof.
  revert s'. induction s as [|a s IH]; intros [|b s']; simpl.
  - tauto.
  - split; [contradiction | discriminate].
  - split; [contradiction | discriminate].
  - rewrite same_letter_lower, IH. split.
    + intros [-> ->]. reflexivity.
    + intros [= -> ->]. auto.
Qed.

Lemma occurs_any_case_ci (kw s : string) :
  Spec.occurs_any_case kw s <-> Spec.occurs_ci kw s.
Proof.
  unfold Spec.occurs_any_case, Spec.occurs_ci.
  split; intros [pre [mid [post [Hs H]]]]; exists pre, mid, post;
    (split; [exact Hs|]); now apply same_up_to_case_lower.
Qed.

Lemma condition_rule_case (s s' : string) (st : locals) :
  Spec.same_up_to_case s s' -> condition_rule s st = condition_rule s' st.
Proof.
  intros H. apply same_up_to_case_lower in H.
  unfold condition_rule. now rewrite H.
Qed.

Lemma rain_wins_lines (t : Q) (s : string) (h : Z) :
  Spec.wins Spec.Rain s ->
  let r := fst (get_clothing_advice t s h) in
  nth_error r 1 = Some Line.rain
  /\ ~ In Line.storm r
  /\ Spec.count_among Spec.condition_lines r = 1%nat.
Proof.
  intros Hrain r. subst r.
  destruct (get_clothing_advice_shape t s h) as [b [oc [_ [Hoc Hr]]]].
  rewrite (matched_wins oc _ _ Hoc Hrain) in Hr.
  rewrite Hr. simpl fst.
  split; [reflexivity|]. split.
  - intros [Hb | [Hc | Hh]].
    + exact (band_line_not_condition b Spec.Storm Hb).
    + revert Hc. distinct_strings.
    + apply in_humidity_part in Hh as [Hh _].
      exact (condition_line_not_humid Spec.Storm Hh).
  - apply (count_condition_lines b (Some Spec.Rain) h).
Qed.

(** C3. Each keyword test of the source is a case-insensitive substring
    search: it succeeds exactly when some substring of the description is the
    keyword written in any case, so that descriptions that differ only by the
    case of their letters get the same condition line ("LIGHT RAIN" the
    umbrella line, "THUNDERSTORM" the storm line and the flag).  The
    condition rules are tried in the order rain/drizzle, snow, storm/thunder,
    fog/mist, and the first one that matches appends its line (and only the
    storm rule raises the flag), no rule appending anything when none
    matches; the result holds at most one condition line.  For
    "light rain during thunderstorm", in small letters or not, at every
    temperature and humidity, the second line is the umbrella line and the
    storm line is absent. *)
Theorem condition_first_match_wins :
  Forall (fun kw => forall s,
              Py.contains kw (Py.lower s) = true <-> Spec.occurs_ci kw s)
         (flat_map Spec.keywords [Spec.Rain; Spec.Snow; Spec.Storm; Spec.Fog])
  /\ (forall s st,
         (exists c,
             Spec.wins c s
             /\ condition_rule s st
                = mkLocals (advice st ++ [Spec.condition_line c])
                           (stay_indoor st || Spec.condition_stay_indoor c))
         \/ ((forall c, ~ Spec.mentions c s) /\ condition_rule s st = st))
  /\ (forall t s h,
         (Spec.count_among Spec.condition_lines
            (fst (get_clothing_advice t s h)) <= 1)%nat)
  /\ (forall t h,
         let r := fst (get_clothing_advice t "light rain during thunderstorm" h) in
         nth_error r 1 = Some Line.rain
         /\ ~ In Line.storm r
         /\ Spec.count_among Spec.condition_lines r = 1%nat)
  /\ Forall (fun kw => forall s,
                 Py.contains kw (Py.lower s) = true
                 <-> Spec.occurs_any_case kw s)
            (flat_map Spec.keywords [Spec.Rain; Spec.Snow; Spec.Storm; Spec.Fog])
  /\ (forall kw s, Spec.occurs_ci kw s <-> Spec.occurs_any_case kw s)
  /\ (forall s s' st,
         Spec.same_up_to_case s s' ->
         condition_rule s st = condition_rule s' st)
  /\ (forall st, condition_rule "LIGHT RAIN" st = append_advice Line.rain st)
  /\ (forall st, condition_rule "Drizzle" st = append_advice Line.rain st)
  /\ (forall st, condition_rule "Heavy SNOW" st = append_advice Line.snow st)
  /\ (forall st, condition_rule "THUNDERSTORM" st
                 = set_stay_indoor (append_advice Line.storm st))
  /\ (forall st, condition_rule "Thunder" st
                 = set_stay_indoor (append_advice Line.storm st))
  /\ (forall st, condition_rule "FOG" st = append_advice Line.fog st)
  /\ (forall st, condition_rule "Mist" st = append_advice Line.fog st)
  /\ (forall st, condition_rule "CLEAR SKY" st = st)
  /\ (forall t h,
         let r := fst (get_clothing_advice t "Light Rain During THUNDERSTORM" h) in
         nth_error r 1 = Some Line.rain
         /\ ~ In Line.storm r
         /\ Spec.count_among Spec.condition_lines r = 1%nat).
Proof.
  split; [|split; [|split; [|split;
    [|split; [|split; [|split; [|repeat (split; [reflexivity|])]]]]]]].
  - simpl.
    repeat (apply Forall_cons;
            [intros s; apply contains_lower; reflexivity|]).
    apply Forall_nil.
  - apply condition_rule_cases.
  - intros t s h.
    destruct (get_clothing_advice_shape t s h) as [b [oc [_ [_ Hr]]]].
    rewrite Hr. simpl fst. rewrite count_condition_lines.
    destruct oc; simpl; lia.
  - intros t h. apply rain_wins_lines.
    split; [apply mentionsb_spec; reflexivity | constructor].
  - simpl.
    repeat (apply Forall_cons;
            [intros s; rewrite occurs_any_case_ci;
             apply contains_lower; reflexivity|]).
    apply Forall_nil.
  - intros kw s. symmetry. apply occurs_any_case_ci.
  - intros s s' st. apply condition_rule_case.
  - intros t h. apply rain_wins_lines.
    split; [apply mentionsb_spec; reflexivity | constructor].
Qed.

(** C4. The moisture-wicking line is among the lines returned exactly when
    the humidity is above 80: absent at 80, present at 81, whatever the
    temperature and the description; the humidity rule leaves the
    stay-indoor flag as it finds it. *)
Theorem humidity_line_iff (t : Q) (c : string) (h : Z) :
  (In Line.humid (fst (get_clothing_advice t c h)) <-> 80 < h)
  /\ ~ In Line.humid (fst (get_clothing_advice t c 80))
  /\ In Line.humid (fst (get_clothing_advice t c 81))
  /\ (forall st, stay_indoor (humidity_rule h st) = stay_indoor st)
  /\ snd (get_clothing_advice t c h)
     = stay_indoor (condition_rule c (temperature_rule t initial)).
Proof.
  assert (Hiff : forall k, In Line.humid (fst (get_clothing_advice t c k))
                           <-> 80 < k).
  { intros k.
    destruct (get_clothing_advice_shape t c k) as [b [oc [_ [_ Hr]]]].
    rewrite Hr. simpl fst. split.
    - intros [Hb | Hrest].
      + now apply band_line_not_humid in Hb.
      + apply in_app_or in Hrest as [Hc | Hh].
        * apply in_condition_part in Hc as [k' [_ Hk']].
          symmetry in Hk'. now apply condition_line_not_humid in Hk'.
        * now apply in_humidity_part in Hh.
    - intros Hk. right. apply in_or_app. right.
      now apply in_humidity_part. }
  split; [apply Hiff|].
  split; [rewrite Hiff; lia|].
  split; [rewrite Hiff; lia|].
  split; [intros st; now rewrite humidity_rule_part|].
  apply get_clothing_advice_flag.
Qed.

Lemma count_band_lines (b : Spec.band) (oc : option Spec.condition_class)
    (h : Z) :
  Spec.count_among (map Spec.band_line Spec.bands)
    (Spec.band_line b :: Spec.condition_part oc ++ Spec.humidity_part h)
  = 1%nat.
Proof.
  unfold Spec.humidity_part.
  destruct b, oc as [[]|], (80 <? h); vm_compute; reflexivity.
Qed.

Lemma count_humidity_lines (b : Spec.band) (oc : option Spec.condition_class)
    (h : Z) :
  Spec.count_among [Line.humid]
    (Spec.band_line b :: Spec.condition_part oc ++ Spec.humidity_part h)
  = List.length (Spec.humidity_part h).
Proof.
  unfold Spec.humidity_part.
  destruct b, oc as [[]|], (80 <? h); vm_compute; reflexivity.
Qed.

(** C5. The lines returned are: the line of the band of the temperature,
    then the line of the condition rule that won if one did, then the
    humidity line if the humidity is above 80.  So there are one to three
    lines, exactly one of them a temperature line, at most one a condition
    line and at most one the humidity line. *)
Theorem advice_lines_order (t : Q) (c : string) (h : Z) :
  let lines := fst (get_clothing_advice t c h) in
  (exists b oc,
      Spec.in_band b t /\ Spec.matched oc c
      /\ lines = ([Spec.band_line b] ++ Spec.condition_part oc
                    ++ Spec.humidity_part h)%list)
  /\ lines <> []
  /\ (1 <= List.length lines <= 3)%nat
  /\ Spec.count_among (map Spec.band_line Spec.bands) lines = 1%nat
  /\ (Spec.count_among Spec.condition_lines lines <= 1)%nat
  /\ (Spec.count_among [Line.humid] lines <= 1)%nat.
Proof.
  intros lines. subst lines.
  destruct (get_clothing_advice_shape t c h) as [b [oc [Hb [Hoc Hr]]]].
  rewrite Hr. simpl fst.
  assert (Hc : (List.length (Spec.condition_part oc) <= 1)%nat)
    by (destruct oc; simpl; lia).
  assert (Hh : (List.length (Spec.humidity_part h) <= 1)%nat)
    by (unfold Spec.humidity_part; destruct (80 <? h); simpl; lia).
  split; [exists b, oc; split; [assumption | split; [assumption | reflexivity]]|].
  split; [discriminate|].
  split; [simpl; rewrite length_app; lia|].
  rewrite count_band_lines, count_condition_lines, count_humidity_lines.
  repeat split; assumption.
Qed.

(** C6. No rule clears the stay-indoor flag: a rule entered with the flag
    set leaves it set.  The flag is the flag of the temperature band after
    the temperature rule, the disjunction of that flag and the flag of the
    condition rule after the condition rules, and the humidity rule leaves it
    alone, so that the flag returned is that disjunction. *)
Theorem stay_indoor_monotonic_or (t : Q) (c : string) (h : Z) (st : locals) :
  (stay_indoor st = true ->
   stay_indoor (temperature_rule t st) = true
   /\ stay_indoor (condition_rule c st) = true
   /\ stay_indoor (humidity_rule h st) = true)
  /\ exists b oc,
      Spec.in_band b t /\ Spec.matched oc c
      /\ stay_indoor (temperature_rule t initial) = Spec.band_stay_indoor b
      /\ stay_indoor (condition_rule c (temperature_rule t initial))
         = Spec.band_stay_indoor b || Spec.condition_flag oc
      /\ stay_indoor (humidity_rule h
                        (condition_rule c (temperature_rule t initial)))
         = Spec.band_stay_indoor b || Spec.condition_flag oc
      /\ snd (get_clothing_advice t c h)
         = Spec.band_stay_indoor b || Spec.condition_flag oc.
Proof.
  split.
  - intros Hset.
    destruct (temperature_rule_band t st) as [b [_ Ht]].
    destruct (condition_rule_cases c st) as [[k [_ Hc]] | [_ Hc]];
      rewrite Ht, Hc, humidity_rule_part; simpl; rewrite ?Hset; auto.
  - destruct (get_clothing_advice_shape t c h) as [b [oc [Hb [Hoc Hr]]]].
    exists b, oc.
    pose proof (get_clothing_advice_flag t c h) as Hflag.
    rewrite Hr in Hflag. simpl snd in Hflag.
    destruct (temperature_rule_band t initial) as [b0 [Hb0 Ht]].
    rewrite (in_band_unique b0 b t Hb0 Hb) in Ht.
    split; [assumption|]. split; [assumption|].
    split; [now rewrite Ht|].
    split; [now rewrite <- Hflag|].
    split; [now rewrite humidity_rule_part, <- Hflag|].
    now rewrite Hr.
Qed.

Lemma stay_indoor_monotonic_or_witness :
  stay_indoor (mkLocals [Line.storm] true) = true
  /\ stay_indoor (temperature_rule (20 # 1) (mkLocals [Line.storm] true)) = true
  /\ stay_indoor (condition_rule "Light Rain" (mkLocals [Line.storm] true)) = true
  /\ stay_indoor (humidity_rule 90 (mkLocals [Line.storm] true)) = true.
Proof.
  split; [reflexivity|].
  apply (stay_indoor_monotonic_or (20 # 1) "Light Rain" 90
           (mkLocals [Line.storm] true)).
  reflexivity.
Defined.

(** C10. Whenever [get_clothing_advice] raises the stay-indoor flag, the
    lines explain it: the first line is the extreme-cold line or the
    extreme-heat line, or the second line is the storm warning. *)
Theorem stay_indoor_explained (t : Q) (c : string) (h : Z) :
  snd (get_clothing_advice t c h) = true ->
  nth_error (fst (get_clothing_advice t c h)) 0 = Some Line.extreme_cold
  \/ nth_error (fst (get_clothing_advice t c h)) 0 = Some Line.extreme_heat
  \/ nth_error (fst (get_clothing_advice t c h)) 1 = Some Line.storm.
Proof.
  destruct (get_clothing_advice_shape t c h) as [b [oc [_ [_ Hr]]]].
  rewrite Hr. simpl fst. simpl snd. rewrite orb_true_iff.
  intros [Hband | Hcond].
  - destruct b; try discriminate Hband; simpl; auto.
  - destruct oc as [[]|]; try discriminate Hcond. simpl. auto.
Qed.

Lemma stay_indoor_explained_witness :
  snd (get_clothing_advice (22 # 1) "Thunderstorm" 50) = true
  /\ (nth_error (fst (get_clothing_advice (22 # 1) "Thunderstorm" 50)) 0
        = Some Line.extreme_cold
      \/ nth_error (fst (get_clothing_advice (22 # 1) "Thunderstorm" 50)) 0
         = Some Line.extreme_heat
      \/ nth_error (fst (get_clothing_advice (22 # 1) "Thunderstorm" 50)) 1
         = Some Line.storm).
Proof.
  split; [reflexivity|].
  apply (stay_indoor_explained (22 # 1) "Thunderstorm" 50).
  reflexivity.
Defined.

(** ** The narration *)











(** ** The functions as Python runs them *)

Lemma update_last (h : Dyn.heap) (xs ys : list string) :
  Dyn.update (h ++ [xs])%list (List.length h) ys = (h ++ [ys])%list.
Proof.
  induction h as [|o h IH]; simpl; [reflexivity | now rewrite IH].
Qed.

Lemma nth_error_last (h : Dyn.heap) (xs : list string) (rest : Dyn.heap) :
  nth_error (h ++ xs :: rest)%list (List.length h) = Some xs.
Proof.
  induction h as [|o h IH]; simpl; [reflexivity | exact IH].
Qed.

Lemma append_last {A : Type} (h : Dyn.heap) (xs : list string) (line : string)
    (a : A) :
  Dyn.bind (Dyn.append (List.length h) line) (fun _ => Dyn.ret a) (h ++ [xs])%list
  = inr (a, (h ++ [xs ++ [line]])%list).
Proof.
  unfold Dyn.bind, Dyn.append, Dyn.ret.
  now rewrite nth_error_last, update_last.
Qed.

Lemma append_last_unit (h : Dyn.heap) (xs : list string) (line : string) :
  Dyn.append (List.length h) line (h ++ [xs])%list
  = inr (tt, (h ++ [xs ++ [line]])%list).
Proof.
  unfold Dyn.append. now rewrite nth_error_last, update_last.
Qed.

Lemma bind_ret {A B : Type} (a : A) (k : A -> Dyn.M B) (h : Dyn.heap) :
  Dyn.bind (Dyn.ret a) k h = k a h.
Proof. reflexivity. Qed.

(** On a number, the chain of comparisons runs without an exception and does
    to the list object what [temperature_rule] does to [advice]. *)
Lemma run_temperature_rule (x : Dyn.number) (h : Dyn.heap) (st : locals) :
  Dyn.temperature_rule (Dyn.VNum x) (List.length h) (stay_indoor st)
    (h ++ [advice st])%list
  = inr (stay_indoor (temperature_rule (Dyn.to_Q x) st),
         (h ++ [advice (temperature_rule (Dyn.to_Q x) st)])%list).
Proof.
  unfold Dyn.temperature_rule, temperature_rule, Dyn.lt.
  repeat (rewrite bind_ret;
          match goal with
          | |- context [Py.lt_int ?q ?k] => destruct (Py.lt_int q k)
          end;
          [now rewrite append_last|]).
  now rewrite append_last.
Qed.

Lemma run_condition_rule (s : string) (h : Dyn.heap) (st : locals) :
  Dyn.condition_rule (Dyn.VStr s) (List.length h) (stay_indoor st)
    (h ++ [advice st])%list
  = inr (stay_indoor (condition_rule s st),
         (h ++ [advice (condition_rule s st)])%list).
Proof.
  unfold Dyn.condition_rule, condition_rule, Dyn.lower.
  rewrite bind_ret.
  repeat match goal with
         | |- context [if ?b then _ else _] =>
             destruct b; [now rewrite append_last|]
         end.
  reflexivity.
Qed.

Lemma run_humidity_rule (z : Z) (h : Dyn.heap) (st : locals) :
  Dyn.humidity_rule (Dyn.VNum (Dyn.Int z)) (List.length h) (h ++ [advice st])%list
  = inr (tt, (h ++ [advice (humidity_rule z st)])%list).
Proof.
  unfold Dyn.humidity_rule, humidity_rule, Dyn.gt.
  rewrite bind_ret. cbn [Dyn.to_Q]. rewrite gt_int_inject.
  destruct (z >? 80); [apply append_last_unit | reflexivity].
Qed.

(** A call on arguments of the declared types allocates one list object,
    fills it with the lines of [get_clothing_advice] and returns it with the
    flag; the objects already on the heap are left as they are. *)
Lemma run_get_clothing_advice (x : Dyn.number) (c : string) (z : Z)
    (h : Dyn.heap) :
  Dyn.get_clothing_advice (Dyn.VNum x) (Dyn.VStr c) (Dyn.VNum (Dyn.Int z)) h
  = inr ((List.length h, snd (get_clothing_advice (Dyn.to_Q x) c z)),
         (h ++ [fst (get_clothing_advice (Dyn.to_Q x) c z)])%list).
Proof.
  unfold Dyn.get_clothing_advice, get_clothing_advice.
  unfold Dyn.bind at 1. unfold Dyn.new_list.
  unfold Dyn.bind at 1.
  pose proof (run_temperature_rule x h initial) as Ht.
  change (stay_indoor initial) with false in Ht.
  change (advice initial) with (@nil string) in Ht.
  rewrite Ht. clear Ht.
  unfold Dyn.bind at 1. rewrite run_condition_rule.
  unfold Dyn.bind at 1. rewrite run_humidity_rule.
  simpl. now rewrite humidity_rule_part.
Qed.

Lemma run_generate_weather_speech
    (city : string) (tv fv : Dyn.number) (condition : string)
    (h : Dyn.heap) (xs : list string) (rest : Dyn.heap) (stay : bool) :
  Dyn.generate_weather_speech city (Dyn.VNum tv) (Dyn.VNum fv) condition
    (List.length h) stay (h ++ xs :: rest)%list
  = match generate_weather_speech city tv fv condition xs stay with
    | inr text => inr (text, (h ++ xs :: rest)%list)
    | inl e => inl e
    end.
Proof.
  unfold Dyn.generate_weather_speech, generate_weather_speech, Dyn.format_1f.
  destruct (Dyn.number_format_1f tv) as [e | t]; [reflexivity|].
  rewrite bind_ret.
  destruct (Dyn.number_format_1f fv) as [e | f]; [reflexivity|].
  rewrite bind_ret. unfold Dyn.bind, Dyn.items.
  now rewrite nth_error_last.
Qed.

Lemma repeat_call_raises {A : Type} (call : Dyn.M A) (e : Dyn.exn)
    (h : Dyn.heap) (n : nat) :
  call h = inl e ->
  Dyn.repeat_call (S n) call h = inl e.
Proof.
  intros Hcall. simpl. unfold Dyn.bind at 1. now rewrite Hcall.
Qed.

Lemma repeat_call_same {A : Type} (call : Dyn.M A) (a : A) (h : Dyn.heap)
    (n : nat) :
  call h = inr (a, h) ->
  Dyn.repeat_call n call h = inr (repeat a n, h).
Proof.
  intros Hcall. induction n as [|n IH]; simpl; [reflexivity|].
  unfold Dyn.bind at 1. rewrite Hcall.
  unfold Dyn.bind at 1. now rewrite IH.
Qed.

Lemma repeat_get_clothing_advice (x : Dyn.number) (c : string) (z : Z)
    (n : nat) (h : Dyn.heap) :
  Dyn.repeat_call n
    (Dyn.get_clothing_advice (Dyn.VNum x) (Dyn.VStr c) (Dyn.VNum (Dyn.Int z))) h
  = inr (map (fun i => ((List.length h + i)%nat,
                        snd (get_clothing_advice (Dyn.to_Q x) c z)))
             (seq 0 n),
         (h ++ repeat (fst (get_clothing_advice (Dyn.to_Q x) c z)) n)%list).
Proof.
  revert h. induction n as [|n IH]; intros h.
  - simpl. now rewrite app_nil_r.
  - cbn [Dyn.repeat_call]. unfold Dyn.bind at 1.
    rewrite run_get_clothing_advice.
    unfold Dyn.bind at 1. rewrite IH. unfold Dyn.ret.
    rewrite <- app_assoc. simpl app. rewrite length_app. simpl List.length.
    cbn [seq map]. rewrite <- seq_shift, map_map.
    rewrite Nat.add_0_r. do 3 f_equal.
    apply map_ext. intros i. f_equal. lia.
Qed.

(** C8. On a temperature that is a number (an int or a float), a description
    that is a string and a humidity that is an integer, the call raises no
    exception: it returns a list object and a flag, those of
    [get_clothing_advice].  So it does on the empty description, on bytes
    that are not ASCII, on 1000 degrees, and on a humidity of -5 or of
    10^9. *)
Theorem get_clothing_advice_never_raises
    (x : Dyn.number) (c : string) (z : Z) (h : Dyn.heap) :
  (exists (r : Dyn.ref) (flag : bool) (h' : Dyn.heap),
      Dyn.get_clothing_advice (Dyn.VNum x) (Dyn.VStr c) (Dyn.VNum (Dyn.Int z)) h
      = inr ((r, flag), h')
      /\ nth_error h' r = Some (fst (get_clothing_advice (Dyn.to_Q x) c z))
      /\ flag = snd (get_clothing_advice (Dyn.to_Q x) c z))
  /\ Dyn.get_clothing_advice (Dyn.VNum (Dyn.Float (1000 # 1))) (Dyn.VStr "")
       (Dyn.VNum (Dyn.Int (-5))) h
     = inr ((List.length h, true), (h ++ [[Line.extreme_heat]])%list)
  /\ Dyn.get_clothing_advice (Dyn.VNum (Dyn.Int (-1000)))
       (Dyn.VStr (String (ascii_of_nat 195) (String (ascii_of_nat 169) "")))
       (Dyn.VNum (Dyn.Int 1000000000)) h
     = inr ((List.length h, true),
            (h ++ [[Line.extreme_cold; Line.humid]])%list).
Proof.
  split; [|split; apply run_get_clothing_advice].
  exists (List.length h), (snd (get_clothing_advice (Dyn.to_Q x) c z)),
    (h ++ [fst (get_clothing_advice (Dyn.to_Q x) c z)])%list.
  split; [apply run_get_clothing_advice|].
  split; [apply nth_error_last | reflexivity].
Qed.

(** The exceptions of the model are real: a description that is [None]
    makes [condition.lower()] raise. *)
Example get_clothing_advice_raises_on_none :
  Dyn.get_clothing_advice (Dyn.VNum (Dyn.Int 20)) Dyn.VNone
    (Dyn.VNum (Dyn.Int 50)) []
  = inl Dyn.AttributeError.
Proof. reflexivity. Qed.

(** C9. Any number of calls of [get_clothing_advice] with the same arguments,
    one after the other, return list objects with the same lines and the same
    flag, whatever the heap they start from; each call allocates its own list
    and changes no other object.  Any number of calls of
    [generate_weather_speech] with the same arguments do the same thing: all
    return the same string and leave the heap as it was, or, when an f-string
    raises, the call raises the same exception every time. *)
Theorem repeated_calls_identical
    (n : nat) (x : Dyn.number) (c : string) (z : Z)
    (city : string) (tv fv : Dyn.number) (condition : string) (stay : bool)
    (h : Dyn.heap) (xs : list string) (rest : Dyn.heap) :
  Dyn.repeat_call n
    (Dyn.get_clothing_advice (Dyn.VNum x) (Dyn.VStr c) (Dyn.VNum (Dyn.Int z))) h
  = inr (map (fun i => ((List.length h + i)%nat,
                        snd (get_clothing_advice (Dyn.to_Q x) c z)))
             (seq 0 n),
         (h ++ repeat (fst (get_clothing_advice (Dyn.to_Q x) c z)) n)%list)
  /\ Dyn.repeat_call n
       (Dyn.generate_weather_speech city (Dyn.VNum tv) (Dyn.VNum fv) condition
          (List.length h) stay) (h ++ xs :: rest)%list
     = match generate_weather_speech city tv fv condition xs stay with
       | inr text => inr (repeat text n, (h ++ xs :: rest)%list)
       | inl e =>
           match n with
           | O => inr ([], (h ++ xs :: rest)%list)
           | S _ => inl e
           end
       end.
Proof.
  split.
  - apply repeat_get_clothing_advice.
  - pose proof (run_generate_weather_speech city tv fv condition h xs rest
                  stay) as Hrun.
    destruct (generate_weather_speech city tv fv condition xs stay)
      as [e | text].
    + destruct n as [|n]; [reflexivity|].
      now apply repeat_call_raises.
    + now apply repeat_call_same.
Qed.

(** * The dashboard *)

Local Open Scope list_scope.

(** ** The retries of get_weather and get_forecast *)

Lemma answer_head (E : App.env) (target c : string) (rest : list string)
    (trace : list App.request) :
  App.answer E target (c :: rest) trace 0
  = Some (App.http_get E trace (App.request_for E target c)).
Proof.
  unfold App.answer. simpl. now rewrite app_nil_r.
Qed.

Lemma answer_tail (E : App.env) (target c : string) (rest : list string)
    (trace : list App.request) (j : nat) :
  App.answer E target (c :: rest) trace (S j)
  = App.answer E target rest (trace ++ [App.request_for E target c]) j.
Proof.
  unfold App.answer. simpl nth_error.
  destruct (nth_error rest j); [|reflexivity].
  simpl firstn. simpl map. now rewrite <- app_assoc.
Qed.

(** A failed answer sends the loop to the next variation. *)
Lemma try_variations_failed (E : App.env) (target : string) (nf : App.json)
    (c : string) (rest : list string) (trace : list App.request) :
  App.failed (App.http_get E trace (App.request_for E target c)) = true ->
  App.try_variations E target nf (c :: rest) trace
  = App.try_variations E target nf rest
      (trace ++ [App.request_for E target c]).
Proof.
  simpl. unfold App.request_for, App.failed.
  destruct (App.http_get E trace _) as [status body | []]; try discriminate.
  - destruct (status =? 200); [|reflexivity].
    destruct body as [v | []]; try discriminate. reflexivity.
  - reflexivity.
Qed.

Lemma try_variations_first_success (E : App.env) (target : string)
    (nf : App.json) (vs : list string) (trace : list App.request)
    (k : nat) (v : App.json) :
  (forall j, (j < k)%nat ->
             exists o, App.answer E target vs trace j = Some o
                       /\ App.failed o = true) ->
  App.answer E target vs trace k
  = Some (App.Response 200 (App.Parsed v)) ->
  App.try_variations E target nf vs trace
  = (inr v, (trace ++ map (App.request_for E target) (firstn (S k) vs))%list).
Proof.
  revert trace k. induction vs as [|c rest IH]; intros trace k Hfail Hk.
  - unfold App.answer in Hk. destruct k; discriminate Hk.
  - destruct k as [|k].
    + rewrite answer_head in Hk. injection Hk as Hk.
      simpl. unfold App.request_for in Hk. rewrite Hk. reflexivity.
    + destruct (Hfail 0%nat ltac:(lia)) as [o [Ho Hf]].
      rewrite answer_head in Ho. injection Ho as <-.
      rewrite (try_variations_failed E target nf c rest trace Hf).
      rewrite answer_tail in Hk.
      rewrite (IH _ k); [| |exact Hk].
      * simpl firstn. simpl map. now rewrite <- app_assoc.
      * intros j Hj. destruct (Hfail (S j) ltac:(lia)) as [o [Ho Hfo]].
        rewrite answer_tail in Ho. now exists o.
Qed.

Lemma try_variations_all_failed (E : App.env) (target : string)
    (nf : App.json) (vs : list string) (trace : list App.request) :
  (forall j, (j < List.length vs)%nat ->
             exists o, App.answer E target vs trace j = Some o
                       /\ App.failed o = true) ->
  App.try_variations E target nf vs trace
  = (inr nf, (trace ++ map (App.request_for E target) vs)%list).
Proof.
  revert trace. induction vs as [|c rest IH]; intros trace Hfail.
  - simpl. now rewrite app_nil_r.
  - destruct (Hfail 0%nat ltac:(simpl; lia)) as [o [Ho Hf]].
    rewrite answer_head in Ho. injection Ho as <-.
    rewrite (try_variations_failed E target nf c rest trace Hf).
    rewrite IH.
    + simpl map. now rewrite <- app_assoc.
    + intros j Hj. destruct (Hfail (S j) ltac:(simpl; lia)) as [o [Ho Hfo]].
      rewrite answer_tail in Ho. now exists o.
Qed.

Lemma try_variations_trace (E : App.env) (target : string) (nf : App.json)
    (vs : list string) (trace : list App.request) :
  exists k,
    (k <= List.length vs)%nat
    /\ (vs <> [] -> (1 <= k)%nat)
    /\ snd (App.try_variations E target nf vs trace)
       = (trace ++ map (App.request_for E target) (firstn k vs))%list.
Proof.
  revert trace. induction vs as [|c rest IH]; intros trace.
  - exists 0%nat. simpl. rewrite app_nil_r. repeat split; auto; congruence.
  - assert (Hstop : forall r : App.R App.json,
               exists k, (k <= List.length (c :: rest))%nat
                 /\ (c :: rest <> [] -> (1 <= k)%nat)
                 /\ snd (r, (trace ++ [App.request_for E target c])%list)
                    = (trace ++ map (App.request_for E target)
                                   (firstn k (c :: rest)))%list).
    { intros r. exists 1%nat. simpl. repeat split; auto; lia. }
    assert (Hgo : exists k, (k <= List.length (c :: rest))%nat
                 /\ (c :: rest <> [] -> (1 <= k)%nat)
                 /\ snd (App.try_variations E target nf rest
                           (trace ++ [App.request_for E target c]))
                    = (trace ++ map (App.request_for E target)
                                   (firstn k (c :: rest)))%list).
    { destruct (IH (trace ++ [App.request_for E target c])%list)
        as [k [Hk [_ Ht]]].
      exists (S k). simpl. rewrite Ht, <- app_assoc.
      repeat split; auto; lia. }
    simpl App.try_variations.
    change (App.mkRequest target c (App.API_KEY E) "metric")
      with (App.request_for E target c).
    destruct (App.http_get E trace _) as [status body | []].
    + destruct (status =? 200); [|exact Hgo].
      destruct body as [v | []]; [apply Hstop | exact Hgo | apply Hstop].
    + exact Hgo.
    + apply Hstop.
Qed.

(** X1. [get_weather] returns the JSON of the first variation of the city
    name (stripped, title case, upper case, lower case, in this order) that
    the server answers with status 200, when the answers before it were
    failures (another status, or a [RequestException]); it makes no request
    after that one. *)
Theorem get_weather_first_success (E : App.env) (city : string)
    (trace : list App.request) (k : nat) (v : App.json) :
  (forall j, (j < k)%nat ->
             exists o,
               App.answer E App.BASE_URL (App.city_variations E city) trace j
               = Some o
               /\ App.failed o = true) ->
  App.answer E App.BASE_URL (App.city_variations E city) trace k
  = Some (App.Response 200 (App.Parsed v)) ->
  App.get_weather E city trace
  = (inr v,
     trace ++ map (App.request_for E App.BASE_URL)
                  (firstn (S k) (App.city_variations E city))).
Proof.
  intros Hfail Hk. unfold App.get_weather.
  now apply try_variations_first_success.
Qed.

Lemma get_weather_first_success_witness :
  let E := App.scripted
             [App.HttpRaises true;
              App.Response 404 (App.Parsed App.JNull);
              App.Response 200 (App.Parsed (App.JStr "sunny"))] in
  (forall j, (j < 2)%nat ->
             exists o,
               App.answer E App.BASE_URL (App.city_variations E "Paris") [] j
               = Some o
               /\ App.failed o = true)
  /\ App.answer E App.BASE_URL (App.city_variations E "Paris") [] 2
     = Some (App.Response 200 (App.Parsed (App.JStr "sunny")))
  /\ App.get_weather E "Paris" []
     = (inr (App.JStr "sunny"),
        [] ++ map (App.request_for E App.BASE_URL)
                  (firstn 3 (App.city_variations E "Paris"))).
Proof.
  intros E.
  assert (Hfail : forall j, (j < 2)%nat ->
            exists o,
              App.answer E App.BASE_URL (App.city_variations E "Paris") [] j
              = Some o
              /\ App.failed o = true).
  { intros [|[|j]] Hj; [eexists; split; reflexivity ..|lia]. }
  split; [exact Hfail|]. split; [reflexivity|].
  apply (get_weather_first_success E "Paris" [] 2 (App.JStr "sunny") Hfail).
  reflexivity.
Defined.

(** X2. When the four answers are failures, [get_weather] has made the four
    requests and returns the dict with [cod] 404 and the message
    "City not found"; no exception of the requests reaches the caller. *)
Theorem get_weather_all_failed (E : App.env) (city : string)
    (trace : list App.request) :
  (forall j, (j < 4)%nat ->
             exists o,
               App.answer E App.BASE_URL (App.city_variations E city) trace j
               = Some o
               /\ App.failed o = true) ->
  App.get_weather E city trace
  = (inr (App.JObj [("cod", App.JNum (Dyn.Int 404));
                    ("message", App.JStr "City not found")]),
     trace ++ map (App.request_for E App.BASE_URL)
                  (App.city_variations E city)).
Proof.
  intros Hfail. unfold App.get_weather.
  now apply try_variations_all_failed.
Qed.

Lemma get_weather_all_failed_witness :
  let E := App.scripted
             [App.HttpRaises true;
              App.Response 401 (App.Parsed App.JNull);
              App.Response 200 (App.JsonRaises true);
              App.Response 500 (App.JsonRaises false)] in
  (forall j, (j < 4)%nat ->
             exists o,
               App.answer E App.BASE_URL (App.city_variations E "Paris") [] j
               = Some o
               /\ App.failed o = true)
  /\ App.get_weather E "Paris" []
     = (inr (App.JObj [("cod", App.JNum (Dyn.Int 404));
                       ("message", App.JStr "City not found")]),
        [] ++ map (App.request_for E App.BASE_URL)
                  (App.city_variations E "Paris")).
Proof.
  intros E.
  assert (Hfail : forall j, (j < 4)%nat ->
            exists o,
              App.answer E App.BASE_URL (App.city_variations E "Paris") [] j
              = Some o
              /\ App.failed o = true).
  { intros [|[|[|[|j]]]] Hj; [eexists; split; reflexivity ..|lia]. }
  split; [exact Hfail|].
  exact (get_weather_all_failed E "Paris" [] Hfail).
Defined.

(** X3. [get_forecast] does the same against the forecast address: the
    JSON of the first variation answered with status 200, and after four
    failures the dict whose [cod] is the string "404". *)
Theorem get_forecast_result (E : App.env) (city : string)
    (trace : list App.request) (k : nat) (v : App.json) :
  (forall j, (j < k)%nat ->
             exists o,
               App.answer E App.FORECAST_URL (App.city_variations E city)
                 trace j = Some o
               /\ App.failed o = true) ->
  (App.answer E App.FORECAST_URL (App.city_variations E city) trace k
   = Some (App.Response 200 (App.Parsed v)) ->
   App.get_forecast E city trace
   = (inr v,
      trace ++ map (App.request_for E App.FORECAST_URL)
                   (firstn (S k) (App.city_variations E city))))
  /\ (k = 4%nat ->
      App.get_forecast E city trace
      = (inr (App.JObj [("cod", App.JStr "404");
                        ("message", App.JStr "City not found")]),
         trace ++ map (App.request_for E App.FORECAST_URL)
                      (App.city_variations E city))).
Proof.
  intros Hfail. unfold App.get_forecast. split.
  - intros Hk. now apply try_variations_first_success.
  - intros ->. now apply try_variations_all_failed.
Qed.

Lemma get_forecast_result_witness :
  let E := App.scripted [App.HttpRaises true; App.HttpRaises true;
                         App.HttpRaises true; App.HttpRaises true] in
  (forall j, (j < 4)%nat ->
             exists o,
               App.answer E App.FORECAST_URL (App.city_variations E "Oslo")
                 [] j = Some o
               /\ App.failed o = true)
  /\ App.get_forecast E "Oslo" []
     = (inr (App.JObj [("cod", App.JStr "404");
                       ("message", App.JStr "City not found")]),
        [] ++ map (App.request_for E App.FORECAST_URL)
                  (App.city_variations E "Oslo")).
Proof.
  intros E.
  assert (Hfail : forall j, (j < 4)%nat ->
            exists o,
              App.answer E App.FORECAST_URL (App.city_variations E "Oslo")
                [] j = Some o
              /\ App.failed o = true).
  { intros [|[|[|[|j]]]] Hj; [eexists; split; reflexivity ..|lia]. }
  split; [exact Hfail|].
  exact (proj2 (get_forecast_result E "Oslo" [] 4 App.JNull Hfail) eq_refl).
Defined.

(** X4. Whatever the server answers, and whether the call returns or
    raises, [get_weather] and [get_forecast] each make at least one and at
    most four requests, for the variations of the city name in their order
    from the first, each with the API key and metric units; they add them to
    the requests made before and make no other. *)
Theorem fetch_requests (E : App.env) (city : string)
    (trace : list App.request) :
  (exists k,
      (1 <= k <= 4)%nat
      /\ snd (App.get_weather E city trace)
         = trace ++ map (App.request_for E App.BASE_URL)
                        (firstn k (App.city_variations E city)))
  /\ (exists k,
         (1 <= k <= 4)%nat
         /\ snd (App.get_forecast E city trace)
            = trace ++ map (App.request_for E App.FORECAST_URL)
                           (firstn k (App.city_variations E city))).
Proof.
  unfold App.get_weather, App.get_forecast.
  split;
    match goal with
    | |- context [App.try_variations E ?t ?nf ?vs trace] =>
        destruct (try_variations_trace E t nf vs trace) as [k [Hk [H1 Ht]]]
    end;
    exists k; (split; [|exact Ht]);
    (split; [apply H1; discriminate | exact Hk]).
Qed.

(** ** The rows of display_forecast *)

(** [xs[::step]] holds at [i] the item of [xs] at [i * step]. *)
Lemma nth_error_every {A : Type} (step : nat) (xs : list A) (skip i : nat) :
  (1 <= step)%nat ->
  nth_error (App.every step skip xs) i = nth_error xs (skip + i * step).
Proof.
  intros Hstep. revert skip i.
  induction xs as [|x rest IH]; intros skip i.
  - simpl. now destruct i, (skip + _)%nat.
  - destruct skip as [|skip]; simpl App.every.
    + destruct i as [|i]; [reflexivity|].
      simpl nth_error at 1. rewrite IH.
      replace (0 + S i * step)%nat with (S (step - 1 + i * step)) by lia.
      reflexivity.
    + rewrite IH. reflexivity.
Qed.

Lemma nth_error_take {A : Type} (xs : list A) (n i : nat) :
  nth_error (firstn n xs) i
  = if (i <? n)%nat then nth_error xs i else None.
Proof.
  revert n i. induction xs as [|x xs IH]; intros n i.
  - rewrite firstn_nil. destruct (i <? n)%nat; now destruct i.
  - destruct n as [|n]; [now destruct i|].
    destruct i as [|i]; [reflexivity|].
    simpl. rewrite IH. reflexivity.
Qed.

(** The five items the loop of [display_forecast] goes through. *)
Lemma nth_error_sampled (items : list App.json) (i : nat) :
  nth_error (firstn 5 (App.every 8 0 items)) i
  = if (i <? 5)%nat then nth_error items (8 * i) else None.
Proof.
  rewrite nth_error_take, nth_error_every by lia.
  now replace (0 + i * 8)%nat with (8 * i)%nat by lia.
Qed.

Ltac step_bind :=
  match goal with
  | |- context [App.bind ?m _] =>
      let r := fresh "r" in
      destruct m as [? | r]; cbn [App.bind App.ret App.raise]
  end.

(** An item adds its row to the columns, or raises, whatever the columns
    hold. *)
Lemma forecast_item_row (E : App.env) (item : App.json) (cols : App.columns) :
  App.forecast_item E item cols
  = match App.forecast_item E item (App.mkColumns [] [] []) with
    | inl e => inl e
    | inr row =>
        inr (App.mkColumns (App.dates cols ++ App.dates row)
                           (App.temps cols ++ App.temps row)
                           (App.descriptions cols ++ App.descriptions row))
    end.
Proof.
  unfold App.forecast_item. repeat (step_bind; [reflexivity|]).
  reflexivity.
Qed.

Lemma forecast_item_single (E : App.env) (item : App.json)
    (row : App.columns) :
  App.forecast_item E item (App.mkColumns [] [] []) = inr row ->
  exists d t c, row = App.mkColumns [d] [t] [c].
Proof.
  unfold App.forecast_item. repeat (step_bind; [discriminate|]).
  intros [= <-]. simpl. eauto.
Qed.

(** The loop returns the columns with one row per item, in order, when
    every item gives a row. *)
Lemma forecast_loop_rows (E : App.env) (items : list App.json)
    (cols cols' : App.columns) :
  App.forecast_loop E items cols = inr cols' ->
  exists ds ts cs,
    List.length ds = List.length items
    /\ List.length ts = List.length items
    /\ List.length cs = List.length items
    /\ cols' = App.mkColumns (App.dates cols ++ ds) (App.temps cols ++ ts)
                 (App.descriptions cols ++ cs)
    /\ forall i item,
        nth_error items i = Some item ->
        exists d t c,
          nth_error ds i = Some d /\ nth_error ts i = Some t
          /\ nth_error cs i = Some c
          /\ App.forecast_item E item (App.mkColumns [] [] [])
             = inr (App.mkColumns [d] [t] [c]).
Proof.
  revert cols. induction items as [|item rest IH]; intros cols; simpl.
  - intros [= <-]. exists [], [], []. rewrite !app_nil_r.
    repeat split; try reflexivity.
    + now destruct cols.
    + intros [|i] it H; discriminate H.
  - rewrite forecast_item_row.
    destruct (App.forecast_item E item (App.mkColumns [] [] [])) as [e|row] eqn:Hrow;
      cbn [App.bind]; [discriminate|].
    destruct (forecast_item_single E item row Hrow) as [d [t [c ->]]].
    intros Hloop. apply IH in Hloop as [ds [ts [cs [Hd [Ht [Hc [-> Hrows]]]]]]].
    exists (d :: ds), (t :: ts), (c :: cs). cbn [App.dates App.temps App.descriptions].
    rewrite <- !app_assoc. simpl.
    repeat split; try congruence.
    intros [|i] it Hit.
    + injection Hit as <-. exists d, t, c. auto.
    + apply (Hrows i it Hit).
Qed.

Lemma forecast_loop_returns (E : App.env) (items : list App.json)
    (cols : App.columns) :
  (forall i item, nth_error items i = Some item ->
                  exists row,
                    App.forecast_item E item (App.mkColumns [] [] [])
                    = inr row) ->
  exists cols', App.forecast_loop E items cols = inr cols'.
Proof.
  revert cols. induction items as [|item rest IH]; intros cols Hrows; simpl.
  - now exists cols.
  - rewrite forecast_item_row.
    destruct (Hrows 0%nat item eq_refl) as [row ->]. cbn [App.bind].
    apply IH. intros i it Hit. exact (Hrows (S i) it Hit).
Qed.

Lemma sampled_length (items : list App.json) (i : nat) :
  (i < List.length (firstn 5 (App.every 8 0 items)))%nat
  <-> (i < 5)%nat /\ (8 * i < List.length items)%nat.
Proof.
  rewrite <- nth_error_Some, nth_error_sampled.
  destruct (i <? 5)%nat eqn:E.
  - apply Nat.ltb_lt in E. rewrite nth_error_Some. tauto.
  - apply Nat.ltb_ge in E. split; [congruence | lia].
Qed.

Lemma display_forecast_list (E : App.env) (data : App.json)
    (items : list App.json) :
  App.getitem data "list" = inr (App.JArr items) ->
  App.display_forecast E data
  = App.forecast_loop E (firstn 5 (App.every 8 0 items))
      (App.mkColumns [] [] []).
Proof.
  intros H. unfold App.display_forecast. now rewrite H.
Qed.

(** X5. When [display_forecast] returns on a forecast whose ["list"] is a
    list, its three columns have the same number of rows, one for each of the
    positions 0, 8, 16, 24 and 32 that the list has; row [i] is made of the
    entry at position [8 * i]: its date, its temperature and its description
    in title case. *)
Theorem display_forecast_rows (E : App.env) (data : App.json)
    (items : list App.json) (cols : App.columns) :
  App.getitem data "list" = inr (App.JArr items) ->
  App.display_forecast E data = inr cols ->
  List.length (App.temps cols) = List.length (App.dates cols)
  /\ List.length (App.descriptions cols) = List.length (App.dates cols)
  /\ (forall i, (i < List.length (App.dates cols))%nat
                <-> (i < 5)%nat /\ (8 * i < List.length items)%nat)
  /\ (forall i, (i < List.length (App.dates cols))%nat ->
                exists item d t c,
                  nth_error items (8 * i) = Some item
                  /\ nth_error (App.dates cols) i = Some d
                  /\ nth_error (App.temps cols) i = Some t
                  /\ nth_error (App.descriptions cols) i = Some c
                  /\ App.forecast_item E item (App.mkColumns [] [] [])
                     = inr (App.mkColumns [d] [t] [c])).
Proof.
  intros Hlist Hret. rewrite (display_forecast_list E data items Hlist) in Hret.
  apply forecast_loop_rows in Hret
    as [ds [ts [cs [Hd [Ht [Hc [-> Hrows]]]]]]].
  cbn [App.dates App.temps App.descriptions app].
  rewrite Hd, Ht, Hc.
  split; [reflexivity|]. split; [reflexivity|].
  split; [apply sampled_length|].
  intros i Hi.
  destruct (nth_error (firstn 5 (App.every 8 0 items)) i) as [item|] eqn:Hitem;
    [|apply nth_error_None in Hitem; lia].
  destruct (Hrows i item Hitem) as [d [t [c [H1 [H2 [H3 H4]]]]]].
  exists item, d, t, c.
  rewrite nth_error_sampled in Hitem.
  apply sampled_length in Hi as [Hi _]. apply Nat.ltb_lt in Hi.
  rewrite Hi in Hitem. auto.
Qed.

Lemma display_forecast_rows_witness :
  let E := App.scripted [] in
  let cols := App.mkColumns ["Mon, Jan 01"; "Mon, Jan 01"]
                [App.JNum (Dyn.Int 20); App.JNum (Dyn.Int 12)]
                ["clear sky"; "light rain"] in
  App.getitem App.example_forecast "list" = inr (App.JArr App.example_entries)
  /\ App.display_forecast E App.example_forecast = inr cols
  /\ List.length (App.temps cols) = List.length (App.dates cols)
  /\ List.length (App.descriptions cols) = List.length (App.dates cols)
  /\ (forall i, (i < List.length (App.dates cols))%nat
                <-> (i < 5)%nat /\ (8 * i < List.length App.example_entries)%nat)
  /\ (forall i, (i < List.length (App.dates cols))%nat ->
                exists item d t c,
                  nth_error App.example_entries (8 * i) = Some item
                  /\ nth_error (App.dates cols) i = Some d
                  /\ nth_error (App.temps cols) i = Some t
                  /\ nth_error (App.descriptions cols) i = Some c
                  /\ App.forecast_item E item (App.mkColumns [] [] [])
                     = inr (App.mkColumns [d] [t] [c])).
Proof.
  intros E cols.
  split; [reflexivity|]. split; [reflexivity|].
  exact (display_forecast_rows E App.example_forecast App.example_entries cols
           eq_refl eq_refl).
Defined.

(** X6. On a forecast whose ["list"] is a list, [display_forecast] returns
    exactly when each entry at the positions 0, 8, 16, 24 and 32 that the
    list has gives a row, that is, when reading its date, its temperature
    and its description raises nothing.  An entry at another position can
    be anything. *)
Theorem display_forecast_returns_iff (E : App.env) (data : App.json)
    (items : list App.json) :
  App.getitem data "list" = inr (App.JArr items) ->
  (exists cols, App.display_forecast E data = inr cols)
  <-> (forall i item,
          (i < 5)%nat -> nth_error items (8 * i) = Some item ->
          exists row,
            App.forecast_item E item (App.mkColumns [] [] []) = inr row).
Proof.
  intros Hlist. rewrite (display_forecast_list E data items Hlist). split.
  - intros [cols Hret] i item Hi Hitem.
    apply forecast_loop_rows in Hret as [ds [ts [cs [_ [_ [_ [_ Hrows]]]]]]].
    destruct (Hrows i item) as [d [t [c [_ [_ [_ Hrow]]]]]]; [|eauto].
    rewrite nth_error_sampled. apply Nat.ltb_lt in Hi. now rewrite Hi.
  - intros Hrows. apply forecast_loop_returns.
    intros i item Hitem. rewrite nth_error_sampled in Hitem.
    destruct (i <? 5)%nat eqn:Hi; [|discriminate].
    apply Nat.ltb_lt in Hi. eauto.
Qed.

Lemma display_forecast_returns_iff_witness :
  App.getitem App.example_forecast "list" = inr (App.JArr App.example_entries)
  /\ ((exists cols,
          App.display_forecast (App.scripted []) App.example_forecast
          = inr cols)
      <-> (forall i item,
              (i < 5)%nat ->
              nth_error App.example_entries (8 * i) = Some item ->
              exists row,
                App.forecast_item (App.scripted []) item
                  (App.mkColumns [] [] []) = inr row)).
Proof.
  split; [reflexivity|].
  exact (display_forecast_returns_iff (App.scripted []) App.example_forecast
           App.example_entries eq_refl).
Defined.

(** X7. Two forecasts whose lists hold the same entries at the positions 0,
    8, 16, 24 and 32 give the same columns, or the same exception: nothing
    else of the list matters, neither its other entries nor its length
    beyond 33. *)
Theorem display_forecast_sampled_only (E : App.env) (data data' : App.json)
    (items items' : list App.json) :
  App.getitem data "list" = inr (App.JArr items) ->
  App.getitem data' "list" = inr (App.JArr items') ->
  (forall i, (i < 5)%nat ->
             nth_error items (8 * i) = nth_error items' (8 * i)) ->
  App.display_forecast E data = App.display_forecast E data'.
Proof.
  intros Hlist Hlist' Hsame.
  rewrite (display_forecast_list E data items Hlist),
    (display_forecast_list E data' items' Hlist').
  f_equal. apply nth_error_ext. intros i. rewrite !nth_error_sampled.
  destruct (i <? 5)%nat eqn:Hi; [|reflexivity].
  apply Nat.ltb_lt in Hi. now apply Hsame.
Qed.

Lemma display_forecast_sampled_only_witness :
  let data' :=
    App.JObj [("list",
               App.JArr [App.example_item 20 "clear sky"; App.JBool true;
                         App.JStr "?"; App.JNull; App.JNull; App.JNull;
                         App.JNull; App.JArr [];
                         App.example_item 12 "light rain";
                         App.JNum (Dyn.Int 7)])] in
  App.getitem App.example_forecast "list" = inr (App.JArr App.example_entries)
  /\ (forall i, (i < 5)%nat ->
                nth_error App.example_entries (8 * i)
                = nth_error
                    [App.example_item 20 "clear sky"; App.JBool true;
                     App.JStr "?"; App.JNull; App.JNull; App.JNull;
                     App.JNull; App.JArr [];
                     App.example_item 12 "light rain";
                     App.JNum (Dyn.Int 7)] (8 * i))
  /\ App.display_forecast (App.scripted []) App.example_forecast
     = App.display_forecast (App.scripted []) data'.
Proof.
  intros data'.
  assert (Hsame : forall i, (i < 5)%nat ->
            nth_error App.example_entries (8 * i)
            = nth_error
                [App.example_item 20 "clear sky"; App.JBool true;
                 App.JStr "?"; App.JNull; App.JNull; App.JNull;
                 App.JNull; App.JArr [];
                 App.example_item 12 "light rain";
                 App.JNum (Dyn.Int 7)] (8 * i)).
  { intros [|[|[|[|[|i]]]]] Hi; try reflexivity; lia. }
  split; [reflexivity|]. split; [exact Hsame|].
  exact (display_forecast_sampled_only (App.scripted []) App.example_forecast
           data' _ _ eq_refl eq_refl Hsame).
Defined.

(** ** The session of the script *)

Lemma search_unfold (E : App.env) (city : string) (b : bool)
    (s : App.session) (trace : list App.request) :
  App.search E city b s trace
  = if App.searches E city b s then
      let s1 := App.mkSession (Some city) (Some false) (Some true)
                  (App.weather_data s) (App.forecast_data s)
                  (App.error_data s) in
      match App.get_weather E city trace with
      | (inl e, trace1) => (inl e, s1, trace1)
      | (inr weather, trace1) =>
          match App.get_forecast E city trace1 with
          | (inl e, trace2) => (inl e, s1, trace2)
          | (inr forecast, trace2) =>
              match App.has_cod (fun cod => App.eq_int cod 200) weather with
              | inl e => (inl e, s1, trace2)
              | inr true =>
                  (inr tt,
                   App.mkSession (Some city) (Some true) (Some true)
                     (Some weather) (Some forecast) (Some App.JNull),
                   trace2)
              | inr false =>
                  (inr tt,
                   App.mkSession (Some city) (Some false) (Some true)
                     (App.weather_data s) (App.forecast_data s)
                     (Some weather),
                   trace2)
              end
          end
      end
    else (inr tt, s, trace).
Proof. reflexivity. Qed.

(** The cases of a search that takes place, each with the session it
    leaves. *)
Lemma search_cases (E : App.env) (city : string) (b : bool)
    (s : App.session) (trace : list App.request) :
  App.searches E city b s = true ->
  let s1 := App.mkSession (Some city) (Some false) (Some true)
              (App.weather_data s) (App.forecast_data s) (App.error_data s) in
  (exists e trace', App.search E city b s trace = (inl e, s1, trace'))
  \/ (exists weather forecast trace1 trace2,
         App.get_weather E city trace = (inr weather, trace1)
         /\ App.get_forecast E city trace1 = (inr forecast, trace2)
         /\ App.has_cod (fun cod => App.eq_int cod 200) weather = inr true
         /\ App.search E city b s trace
            = (inr tt,
               App.mkSession (Some city) (Some true) (Some true)
                 (Some weather) (Some forecast) (Some App.JNull),
               trace2))
  \/ (exists weather forecast trace1 trace2,
         App.get_weather E city trace = (inr weather, trace1)
         /\ App.get_forecast E city trace1 = (inr forecast, trace2)
         /\ App.has_cod (fun cod => App.eq_int cod 200) weather = inr false
         /\ App.search E city b s trace
            = (inr tt,
               App.mkSession (Some city) (Some false) (Some true)
                 (App.weather_data s) (App.forecast_data s) (Some weather),
               trace2)).
Proof.
  intros Hs s1. rewrite search_unfold, Hs. cbv zeta. fold s1.
  destruct (App.get_weather E city trace) as [[e | weather] trace1];
    [left; eauto|].
  destruct (App.get_forecast E city trace1) as [[e | forecast] trace2] eqn:Hf;
    [left; eauto|].
  destruct (App.has_cod _ weather) as [e | []] eqn:Hcod; [left; eauto | |].
  - right. left. exists weather, forecast, trace1, trace2.
    repeat split; (reflexivity || assumption).
  - right. right. exists weather, forecast, trace1, trace2.
    repeat split; (reflexivity || assumption).
Qed.

(** A value with a [cod] to test, that is not accepted, is a dict when it
    is truthy. *)
Lemma has_cod_dict (eq : App.json -> bool) (v : App.json) (r : bool) :
  App.has_cod eq v = inr r -> App.truthy v = true ->
  exists fields, v = App.JObj fields.
Proof.
  unfold App.has_cod. intros H Ht. rewrite Ht in H.
  destruct v; try discriminate H. eauto.
Qed.

Lemma search_keeps_ok (E : App.env) (city : string) (b : bool)
    (s : App.session) (trace : list App.request) :
  App.session_ok s ->
  App.session_ok (snd (fst (App.search E city b s trace))).
Proof.
  intros Hok. destruct (App.searches E city b s) eqn:Hs.
  - destruct (search_cases E city b s trace Hs)
      as [[e [t' ->]] | [[w [f [t1 [t2 [_ [_ [Hcod ->]]]]]]]
                        | [w [f [t1 [t2 [_ [_ [Hcod ->]]]]]]]]];
      simpl; constructor; simpl; try discriminate.
    + apply (App.error_is_dict s Hok).
    + intros _. exists w, f. auto.
    + intros Ht. destruct (has_cod_dict _ w false Hcod Ht) as [fields ->].
      eauto.
  - rewrite search_unfold, Hs. exact Hok.
Qed.

Lemma run_session (E : App.env) (city : string) (b : bool)
    (s : App.session) (trace : list App.request) :
  snd (fst (App.run E city b s trace))
  = snd (fst (App.search E city b s trace))
  /\ snd (App.run E city b s trace) = snd (App.search E city b s trace).
Proof.
  unfold App.run.
  now destruct (App.search E city b s trace) as [[[e | []] s'] trace'].
Qed.

Lemma new_session_ok : App.session_ok App.new_session.
Proof.
  constructor; simpl; try discriminate. intros H. now contradiction H.
Qed.

(** X8. In every session the script can reach, whatever was typed,
    pressed and answered, and whichever runs raised: if [weather_loaded] is
    set, the weather and the forecast are in the session and the weather was
    accepted ([cod] equal to 200); an [error_data] that is truthy is a dict;
    and once a search was attempted the city of the last search is there. *)
Theorem reachable_session_ok (E : App.env) (s : App.session)
    (trace : list App.request) :
  App.reachable E s trace -> App.session_ok s.
Proof.
  induction 1 as [|s trace city b _ IH].
  - exact new_session_ok.
  - rewrite (proj1 (run_session E city b s trace)).
    now apply search_keeps_ok.
Qed.

Lemma reachable_session_ok_witness :
  let E := App.scripted
             [App.Response 200
                (App.Parsed (App.JObj [("cod", App.JNum (Dyn.Int 200))]))] in
  let r := App.run E "Paris" true App.new_session [] in
  App.reachable E (snd (fst r)) (snd r) /\ App.session_ok (snd (fst r)).
Proof.
  intros E r.
  assert (H : App.reachable E (snd (fst r)) (snd r))
    by exact (App.reachable_run E _ _ "Paris" true (App.reachable_new E)).
  split; [exact H|].
  exact (reachable_session_ok E _ _ H).
Defined.

(** X9. In a session the script can reach, the second part of the script
    chooses what to show without an exception, with one exception: an error
    dict whose ["message"] is not a string, on which [lower] is missing.  In
    particular no attribute of the session is read before it was assigned. *)
Theorem show_reads_session (E : App.env) (s : App.session)
    (trace : list App.request) :
  App.reachable E s trace ->
  (exists p, App.show s = inr p)
  \/ (App.show s = inl App.AttributeError
      /\ exists fields v,
          App.error_data s = Some (App.JObj fields)
          /\ App.method_get (App.JObj fields) "message"
               (App.JStr "Unknown error") = inr v
          /\ forall msg, v <> App.JStr msg).
Proof.
  intros Hreach. pose proof (reachable_session_ok E s trace Hreach) as Hok.
  unfold App.show.
  destruct (match App.weather_loaded s with Some b => b | None => false end)
    eqn:Hloaded.
  - assert (Hl : App.weather_loaded s = Some true)
      by (destruct (App.weather_loaded s) as [[]|]; congruence).
    destruct (App.loaded_has_data s Hok Hl) as [w [f [-> [-> _]]]].
    left. eauto.
  - destruct (App.search_attempted s) as [[]|] eqn:Hatt; simpl;
      try (left; eauto; fail).
    destruct (App.is_set (App.error_data s)) eqn:Hset; [|left; eauto].
    destruct (App.error_is_dict s Hok Hset) as [fields Herr].
    rewrite Herr in Hset |- *.
    change (App.truthy (App.JObj fields) = true) in Hset. rewrite Hset.
    assert (Hcity : exists c, App.last_city s = Some c).
    { destruct (App.last_city s) as [c|] eqn:Hc; [eauto|].
      exfalso. apply (App.attempted_has_city s Hok); congruence. }
    destruct Hcity as [c Hc]. rewrite Hc.
    assert (Hmsg : exists v, App.method_get (App.JObj fields) "message"
                               (App.JStr "Unknown error") = inr v).
    { simpl. destruct (App.lookup fields "message"); eauto. }
    destruct Hmsg as [v Hv]. rewrite Hv. cbn [App.bind].
    destruct v as [| | |msg| |];
      try (right; split; [reflexivity|];
           exists fields; eexists; split; [reflexivity|];
           split; [exact Hv | intros msg; discriminate]).
    left. destruct (Py.contains "not found" (Py.lower msg)).
    + cbn. eauto.
    + simpl App.method_get. destruct (App.lookup fields "cod") as [cod|];
        cbn [App.bind App.ret]; destruct (App.eq_int _ 404); eauto.
Qed.

Lemma show_reads_session_witness :
  let E := App.scripted
             [App.Response 200
                (App.Parsed (App.JObj [("cod", App.JNum (Dyn.Int 401));
                                       ("message", App.JNum (Dyn.Int 0))]))] in
  let r := App.run E "Paris" true App.new_session [] in
  App.reachable E (snd (fst r)) (snd r)
  /\ ((exists p, App.show (snd (fst r)) = inr p)
      \/ (App.show (snd (fst r)) = inl App.AttributeError
          /\ exists fields v,
              App.error_data (snd (fst r)) = Some (App.JObj fields)
              /\ App.method_get (App.JObj fields) "message"
                   (App.JStr "Unknown error") = inr v
              /\ forall msg, v <> App.JStr msg)).
Proof.
  intros E r.
  assert (H : App.reachable E (snd (fst r)) (snd r))
    by exact (App.reachable_run E _ _ "Paris" true (App.reachable_new E)).
  split; [exact H|].
  exact (show_reads_session E _ _ H).
Defined.



Lemma show_weather_page (s : App.session) (w f : App.json) :
  App.show s = inr (App.WeatherPage w f) ->
  App.weather_loaded s = Some true
  /\ App.weather_data s = Some w /\ App.forecast_data s = Some f.
Proof.
  unfold App.show.
  destruct (App.weather_loaded s) as [[]|].
  - destruct (App.weather_data s), (App.forecast_data s); try discriminate.
    now intros [= -> ->].
  - destruct (_ && _); [|discriminate].
    destruct (App.error_data s) as [d|]; [|discriminate].
    destruct (if App.truthy d then _ else _) as [e | [| | |msg| |]];
      cbn [App.bind]; try discriminate.
    destruct (if Py.contains _ _ then _ else _) as [e | []];
      cbn [App.bind]; try discriminate.
    destruct (App.last_city s); discriminate.
  - destruct (_ && _); [|discriminate].
    destruct (App.error_data s) as [d|]; [|discriminate].
    destruct (if App.truthy d then _ else _) as [e | [| | |msg| |]];
      cbn [App.bind]; try discriminate.
    destruct (if Py.contains _ _ then _ else _) as [e | []];
      cbn [App.bind]; try discriminate.
    destruct (App.last_city s); discriminate.
Qed.

(** X11. When a run searches and then shows the weather page, the weather
    on the page is the one [get_weather] returned in this run, with [cod]
    equal to 200, and the forecast the one [get_forecast] returned: after a
    search that failed, the weather of an earlier city is not shown. *)
Theorem weather_page_is_fresh (E : App.env) (city : string) (b : bool)
    (s s' : App.session) (trace trace' : list App.request)
    (w f : App.json) :
  App.searches E city b s = true ->
  App.run E city b s trace = (inr (App.WeatherPage w f), s', trace') ->
  exists trace1,
    App.get_weather E city trace = (inr w, trace1)
    /\ App.get_forecast E city trace1 = (inr f, trace')
    /\ App.has_cod (fun cod => App.eq_int cod 200) w = inr true.
Proof.
  intros Hs. unfold App.run.
  destruct (search_cases E city b s trace Hs)
    as [[e [t' ->]] | [[w0 [f0 [t1 [t2 [Hw [Hf [Hcod ->]]]]]]]
                      | [w0 [f0 [t1 [t2 [_ [_ [_ ->]]]]]]]]].
  - discriminate.
  - intros [= <- <- _ <-]. exists t1. auto.
  - intros [= Hshow _ _].
    apply show_weather_page in Hshow as [Hl _]. discriminate Hl.
Qed.

Lemma weather_page_is_fresh_witness :
  let E := App.scripted
             [App.Response 200
                (App.Parsed (App.JObj [("cod", App.JNum (Dyn.Int 200))]));
              App.Response 200 (App.Parsed App.example_forecast)] in
  let w := App.JObj [("cod", App.JNum (Dyn.Int 200))] in
  let stale := App.mkSession (Some "Oslo") (Some true) (Some true)
                 (Some (App.JObj [("cod", App.JNum (Dyn.Int 200));
                                  ("name", App.JStr "Oslo")]))
                 (Some App.JNull) (Some App.JNull) in
  App.searches E "Paris" false stale = true
  /\ App.run E "Paris" false stale []
     = (inr (App.WeatherPage w App.example_forecast),
        snd (fst (App.run E "Paris" false stale [])),
        snd (App.run E "Paris" false stale []))
  /\ exists trace1,
      App.get_weather E "Paris" [] = (inr w, trace1)
      /\ App.get_forecast E "Paris" trace1
         = (inr App.example_forecast, snd (App.run E "Paris" false stale []))
      /\ App.has_cod (fun cod => App.eq_int cod 200) w = inr true.
Proof.
  intros E w stale.
  split; [reflexivity|]. split; [reflexivity|].
  exact (weather_page_is_fresh E "Paris" false stale _ [] _ w
           App.example_forecast eq_refl eq_refl).
Defined.

Lemma answers_failed (E : App.env) (target : string) (vs : list string)
    (trace : list App.request) (j : nat) :
  (forall tr r, App.failed (App.http_get E tr r) = true) ->
  (j < List.length vs)%nat ->
  exists o, App.answer E target vs trace j = Some o /\ App.failed o = true.
Proof.
  intros Hall Hj. unfold App.answer.
  destruct (nth_error vs j) as [c|] eqn:Hc.
  - eexists. split; [reflexivity | apply Hall].
  - apply nth_error_None in Hc. lia.
Qed.

(** X12. When the server gives no answer with status 200 (whatever the
    reason: an unknown city, but also a refused API key or a network that is
    down), a run that searches ends without an exception on the message that
    the city was not found, after the eight requests of [get_weather] and
    [get_forecast]; the weather page is off. *)
Theorem all_failed_city_not_found (E : App.env) (city : string) (b : bool)
    (s : App.session) (trace : list App.request) :
  (forall tr r, App.failed (App.http_get E tr r) = true) ->
  App.searches E city b s = true ->
  exists s' trace',
    App.run E city b s trace = (inr (App.CityNotFound city), s', trace')
    /\ App.weather_loaded s' = Some false
    /\ List.length trace' = (List.length trace + 8)%nat.
Proof.
  intros Hall Hs.
  unfold App.run. rewrite search_unfold, Hs. cbv zeta.
  unfold App.get_weather, App.get_forecast.
  rewrite try_variations_all_failed
    by (intros j Hj; now apply answers_failed).
  rewrite try_variations_all_failed
    by (intros j Hj; now apply answers_failed).
  simpl. do 2 eexists. split; [reflexivity|]. split; [reflexivity|].
  rewrite !length_app. simpl. lia.
Qed.

Lemma all_failed_city_not_found_witness :
  let E := App.scripted [] in
  (forall tr r, App.failed (App.http_get E tr r) = true)
  /\ App.searches E "Atlantis" true App.new_session = true
  /\ exists s' trace',
      App.run E "Atlantis" true App.new_session []
      = (inr (App.CityNotFound "Atlantis"), s', trace')
      /\ App.weather_loaded s' = Some false
      /\ List.length trace' = (List.length (@nil App.request) + 8)%nat.
Proof.
  intros E.
  assert (Hall : forall tr r, App.failed (App.http_get E tr r) = true).
  { intros tr r. simpl. now destruct (List.length tr). }
  split; [exact Hall|]. split; [reflexivity|].
  exact (all_failed_city_not_found E "Atlantis" true App.new_session []
           Hall eq_refl).
Defined.

(** X13. When the four answers to the forecast requests are failures,
    what [get_forecast] returns makes the weather page show that the forecast
    is unavailable: [display_forecast] is not called and nothing is raised. *)
Theorem forecast_unavailable (E : App.env) (city : string)
    (trace : list App.request) :
  (forall j, (j < 4)%nat ->
             exists o,
               App.answer E App.FORECAST_URL (App.city_variations E city)
                 trace j = Some o
               /\ App.failed o = true) ->
  exists forecast trace',
    App.get_forecast E city trace = (inr forecast, trace')
    /\ App.forecast_section E forecast = inr None.
Proof.
  intros Hfail. unfold App.get_forecast.
  rewrite try_variations_all_failed by exact Hfail.
  do 2 eexists. split; reflexivity.
Qed.

Lemma forecast_unavailable_witness :
  let E := App.scripted [App.Response 500 (App.Parsed App.JNull)] in
  (forall j, (j < 4)%nat ->
             exists o,
               App.answer E App.FORECAST_URL (App.city_variations E "Oslo")
                 [] j = Some o
               /\ App.failed o = true)
  /\ exists forecast trace',
      App.get_forecast E "Oslo" [] = (inr forecast, trace')
      /\ App.forecast_section E forecast = inr None.
Proof.
  intros E.
  assert (Hfail : forall j, (j < 4)%nat ->
            exists o,
              App.answer E App.FORECAST_URL (App.city_variations E "Oslo")
                [] j = Some o
              /\ App.failed o = true).
  { intros [|[|[|[|j]]]] Hj; [eexists; split; reflexivity ..|lia]. }
  split; [exact Hfail|].
  exact (forecast_unavailable E "Oslo" [] Hfail).
Defined.

(** ** The clothing advice of the weather page *)

(** X14. On a weather reading whose ["main"] holds a number for ["temp"],
    an integer for ["humidity"] and some ["feels_like"], and whose
    ["weather"] starts with an item with a string for ["description"], the
    advice of the page is what [get_clothing_advice] gives for the
    temperature, the description in title case and the humidity; no
    exception is raised. *)
Theorem advice_section_result (E : App.env) (weather_data main : App.json)
    (x : Dyn.number) (z : Z) (feels_like weather weather0 : App.json)
    (description : string) :
  App.getitem weather_data "main" = inr main ->
  App.getitem main "temp" = inr (App.JNum x) ->
  App.getitem main "feels_like" = inr feels_like ->
  App.getitem main "humidity" = inr (App.JNum (Dyn.Int z)) ->
  App.getitem weather_data "weather" = inr weather ->
  App.getitem0 weather = inr weather0 ->
  App.getitem weather0 "description" = inr (App.JStr description) ->
  App.advice_section E weather_data
  = inr (get_clothing_advice (Dyn.to_Q x) (App.str_title E description) z).
Proof.
  intros Hmain Htemp Hfeels Hhum Hweather Hw0 Hdesc.
  unfold App.advice_section.
  rewrite Hmain. cbn [App.bind]. rewrite Htemp. cbn [App.bind].
  rewrite Hfeels. cbn [App.bind]. rewrite Hweather. cbn [App.bind].
  rewrite Hw0. cbn [App.bind]. rewrite Hdesc. cbn [App.bind App.method_title App.ret].
  rewrite Hhum. cbn [App.bind App.to_value].
  rewrite run_get_clothing_advice.
  cbn [List.length app nth_error App.ret].
  now rewrite <- surjective_pairing.
Qed.

Lemma advice_section_result_witness :
  let E := App.scripted [] in
  App.getitem App.example_weather "main" = inr App.example_main
  /\ App.getitem App.example_main "temp"
     = inr (App.JNum (Dyn.Float (37 # 2)))
  /\ App.getitem App.example_main "feels_like"
     = inr (App.JNum (Dyn.Float (35 # 2)))
  /\ App.getitem App.example_main "humidity" = inr (App.JNum (Dyn.Int 85))
  /\ App.getitem App.example_weather "weather"
     = inr (App.JArr [App.JObj [("description", App.JStr "light rain")]])
  /\ App.getitem0 (App.JArr [App.JObj [("description", App.JStr "light rain")]])
     = inr (App.JObj [("description", App.JStr "light rain")])
  /\ App.getitem (App.JObj [("description", App.JStr "light rain")])
       "description" = inr (App.JStr "light rain")
  /\ App.advice_section E App.example_weather
     = inr (get_clothing_advice (37 # 2) "light rain" 85).
Proof.
  intros E. repeat (split; [reflexivity|]).
  exact (advice_section_result E App.example_weather App.example_main
           (Dyn.Float (37 # 2)) 85 _ _ _ "light rain"
           eq_refl eq_refl eq_refl eq_refl eq_refl eq_refl eq_refl).
Defined.

(** ** Exceptions of the requests and a forecast that fails *)

Lemma try_variations_uncaught (E : App.env) (target : string)
    (nf : App.json) (vs : list string) (trace : list App.request)
    (k : nat) (o : App.http_outcome) :
  (forall j, (j < k)%nat ->
             exists o', App.answer E target vs trace j = Some o'
                        /\ App.failed o' = true) ->
  App.answer E target vs trace k = Some o ->
  o = App.HttpRaises false \/ o = App.Response 200 (App.JsonRaises false) ->
  App.try_variations E target nf vs trace
  = (inl App.Uncaught,
     trace ++ map (App.request_for E target) (firstn (S k) vs)).
Proof.
  revert trace k. induction vs as [|c rest IH]; intros trace k Hfail Hk Ho.
  - unfold App.answer in Hk. destruct k; discriminate Hk.
  - destruct k as [|k].
    + rewrite answer_head in Hk. injection Hk as Hk.
      simpl. unfold App.request_for in Hk. rewrite Hk.
      now destruct Ho as [-> | ->].
    + destruct (Hfail 0%nat ltac:(lia)) as [o' [Ho' Hf]].
      rewrite answer_head in Ho'. injection Ho' as <-.
      rewrite (try_variations_failed E target nf c rest trace Hf).
      rewrite answer_tail in Hk.
      rewrite (IH _ k); [| |exact Hk|exact Ho].
      * simpl firstn. simpl map. now rewrite <- app_assoc.
      * intros j Hj. destruct (Hfail (S j) ltac:(lia)) as [o' [Ho' Hfo]].
        rewrite answer_tail in Ho'. now exists o'.
Qed.

(** X15. The loop of [get_weather] catches [RequestException] only: when,
    after failures, [requests.get] or [response.json()] of a response with
    status 200 raises another exception, [get_weather] raises it, and the
    variations that were left are not tried. *)
Theorem get_weather_uncaught (E : App.env) (city : string)
    (trace : list App.request) (k : nat) (o : App.http_outcome) :
  (forall j, (j < k)%nat ->
             exists o',
               App.answer E App.BASE_URL (App.city_variations E city) trace j
               = Some o'
               /\ App.failed o' = true) ->
  App.answer E App.BASE_URL (App.city_variations E city) trace k = Some o ->
  o = App.HttpRaises false \/ o = App.Response 200 (App.JsonRaises false) ->
  App.get_weather E city trace
  = (inl App.Uncaught,
     trace ++ map (App.request_for E App.BASE_URL)
                  (firstn (S k) (App.city_variations E city))).
Proof.
  intros Hfail Hk Ho. unfold App.get_weather.
  now apply (try_variations_uncaught E _ _ _ trace k o).
Qed.

Lemma get_weather_uncaught_witness :
  let E := App.scripted [App.Response 503 (App.Parsed App.JNull);
                         App.Response 200 (App.JsonRaises false)] in
  (forall j, (j < 1)%nat ->
             exists o',
               App.answer E App.BASE_URL (App.city_variations E "Paris") [] j
               = Some o'
               /\ App.failed o' = true)
  /\ App.answer E App.BASE_URL (App.city_variations E "Paris") [] 1
     = Some (App.Response 200 (App.JsonRaises false))
  /\ App.get_weather E "Paris" []
     = (inl App.Uncaught,
        [] ++ map (App.request_for E App.BASE_URL)
                  (firstn 2 (App.city_variations E "Paris"))).
Proof.
  intros E.
  assert (Hfail : forall j, (j < 1)%nat ->
            exists o',
              App.answer E App.BASE_URL (App.city_variations E "Paris") [] j
              = Some o'
              /\ App.failed o' = true).
  { intros [|j] Hj; [eexists; split; reflexivity | lia]. }
  split; [exact Hfail|]. split; [reflexivity|].
  exact (get_weather_uncaught E "Paris" [] 1 _ Hfail eq_refl
           (or_intror eq_refl)).
Defined.

(** X16. A forecast that cannot be fetched does not keep the weather from
    being loaded: when a run searches, [get_weather] returns a weather with
    [cod] 200 and the four answers to the forecast requests are failures,
    the search ends without an exception, with [weather_loaded] set and this
    weather in the session; and the forecast it has put in the session fails
    the test [cod == '200'] of the forecast part, which on it does not call
    [display_forecast] and has the unavailable forecast to show. *)
Theorem weather_without_forecast (E : App.env) (city : string) (b : bool)
    (s : App.session) (trace trace1 : list App.request) (w : App.json) :
  App.searches E city b s = true ->
  App.get_weather E city trace = (inr w, trace1) ->
  App.has_cod (fun cod => App.eq_int cod 200) w = inr true ->
  (forall j, (j < 4)%nat ->
             exists o,
               App.answer E App.FORECAST_URL (App.city_variations E city)
                 trace1 j = Some o
               /\ App.failed o = true) ->
  exists forecast trace',
    App.search E city b s trace
    = (inr tt,
       App.mkSession (Some city) (Some true) (Some true) (Some w)
         (Some forecast) (Some App.JNull),
       trace')
    /\ App.has_cod (fun cod => App.eq_str cod "200") forecast = inr false
    /\ App.forecast_section E forecast = inr None.
Proof.
  intros Hs Hw Hcod Hfail.
  rewrite search_unfold, Hs. cbv zeta. rewrite Hw.
  unfold App.get_forecast.
  rewrite try_variations_all_failed by exact Hfail.
  rewrite Hcod. do 2 eexists. repeat split; reflexivity.
Qed.

Lemma weather_without_forecast_witness :
  let E := App.scripted [App.Response 200 (App.Parsed App.example_weather)] in
  let trace1 := [App.request_for E App.BASE_URL "Paris"] in
  App.searches E "Paris" true App.new_session = true
  /\ App.get_weather E "Paris" [] = (inr App.example_weather, trace1)
  /\ App.has_cod (fun cod => App.eq_int cod 200) App.example_weather = inr true
  /\ (forall j, (j < 4)%nat ->
                exists o,
                  App.answer E App.FORECAST_URL (App.city_variations E "Paris")
                    trace1 j = Some o
                  /\ App.failed o = true)
  /\ exists forecast trace',
      App.search E "Paris" true App.new_session []
      = (inr tt,
         App.mkSession (Some "Paris") (Some true) (Some true)
           (Some App.example_weather) (Some forecast) (Some App.JNull),
         trace')
      /\ App.has_cod (fun cod => App.eq_str cod "200") forecast = inr false
      /\ App.forecast_section E forecast = inr None.
Proof.
  intros E trace1.
  assert (Hfail : forall j, (j < 4)%nat ->
            exists o,
              App.answer E App.FORECAST_URL (App.city_variations E "Paris")
                trace1 j = Some o
              /\ App.failed o = true).
  { intros [|[|[|[|j]]]] Hj; [eexists; split; reflexivity ..|lia]. }
  split; [reflexivity|]. split; [reflexivity|]. split; [reflexivity|].
  split; [exact Hfail|].
  exact (weather_without_forecast E "Paris" true App.new_session [] trace1
           App.example_weather eq_refl eq_refl eq_refl Hfail).
Defined.
